(** * Forge dashboard: feature queue, lifecycle and priority operations

    Shallow embedding of the [Dashboard] component.  The repository holds
    three variants of the component:

    - the variant with the add-feature form and the action sheet
      (src/unnamed/part_000, second document, lines 237-704): embedded at
      top level, it is the one most statements are about;
    - src/app/page.tsx (inline buttons, no add form, no action sheet): its
      derived values are letter for letter those of the variant above; its
      handlers and inline buttons are embedded in [Module Page];
    - the session-based variant (src/unnamed/part_000, first document,
      lines 1-236): the parts that differ are embedded in [Module Legacy].

    Modelling conventions.
    - A JS string is the list of its UTF-16 code units ([list N]).
    - A JS number is [number]: an exact rational or one of the three
      special values.  Rounding of doubles and the sign of zero are not
      modelled: what is stated of an addition or a subtraction is stated
      on the values of [exactPriority], where a double is exact.  A row
      whose stored priority is null is outside the model.
    - The store (Supabase) is a table of feature rows and a key/value
      configuration map.  Responses the store chooses (the error of an
      insert, the id of a new row) and the clock are parameters of the
      handlers.
    - A handler runs without interleaving.  [loadData()] is called without
      [await] by every handler: the call is recorded in [pending_loads] and
      its completion is the separate step [loadData]. *)

From Stdlib Require Import QArith Qround Lqa ZArith NArith Lia List String Ascii.
From Stdlib Require Import Sorting.Sorted Sorting.Permutation Floats.SpecFloat.
From stdpp Require Import base option list gmap.

Local Open Scope N_scope.

(** ** JS strings *)

Abbreviation jsstring := (list N).

(** An ASCII literal of the source. *)
Definition lit (s : string) : jsstring :=
  List.map N_of_ascii (list_ascii_of_string s).

Definition LF : N := 10.

(** [WhiteSpace] and [LineTerminator] code units, the ones [trim] strips. *)
Definition isWhiteSpace (c : N) : bool :=
  (c =? 9) || (c =? 10) || (c =? 11) || (c =? 12) || (c =? 13) || (c =? 32)
  || (c =? 160) || (c =? 5760) || ((8192 <=? c) && (c <=? 8202))
  || (c =? 8232) || (c =? 8233) || (c =? 8239) || (c =? 8287)
  || (c =? 12288) || (c =? 65279).

Fixpoint trimStart (s : jsstring) : jsstring :=
  match s with
  | [] => []
  | c :: s' => if isWhiteSpace c then trimStart s' else s
  end.

Definition trimEnd (s : jsstring) : jsstring := rev (trimStart (rev s)).

Definition trim (s : jsstring) : jsstring := trimEnd (trimStart s).

Fixpoint jsstring_eqb (a b : jsstring) : bool :=
  match a, b with
  | [], [] => true
  | x :: a', y :: b' => (x =? y) && jsstring_eqb a' b'
  | _, _ => false
  end.

Fixpoint startsWith (pat s : jsstring) : bool :=
  match pat, s with
  | [], _ => true
  | p :: pat', c :: s' => (p =? c) && startsWith pat' s'
  | _ :: _, [] => false
  end.

(** [s.replace(pat, rep)] with a string pattern: the first occurrence only.
    The source only passes [rep = ''], so the dollar patterns of the
    replacement string never matter. *)
Fixpoint replace (pat rep s : jsstring) : jsstring :=
  if startsWith pat s then rep ++ drop (length pat) s
  else match s with
       | [] => []
       | c :: s' => c :: replace pat rep s'
       end.

(** [s.split(sep)] for a one-unit separator; the empty string gives one
    empty piece. *)
Fixpoint split (sep : N) (s : jsstring) : list jsstring :=
  match s with
  | [] => [[]]
  | c :: s' =>
      if c =? sep then [] :: split sep s'
      else match split sep s' with
           | l :: ls => (c :: l) :: ls
           | [] => [[c]]
           end
  end.

Fixpoint join (sep : jsstring) (ls : list jsstring) : jsstring :=
  match ls with
  | [] => []
  | [l] => l
  | l :: ls' => l ++ sep ++ join sep ls'
  end.

(** Truthiness of a string: non-empty. *)
Definition truthy (s : jsstring) : bool :=
  match s with [] => false | _ :: _ => true end.

(** [a || b] on strings. *)
Definition or_else (a b : jsstring) : jsstring := if truthy a then a else b.

(** ** JS numbers *)

Inductive number : Type :=
| Fin (q : Q)
| PosInf
| NegInf
| NaN.

Definition sgn (q : Q) : comparison := (q ?= 0)%Q.

Definition num_add (a b : number) : number :=
  match a, b with
  | NaN, _ | _, NaN => NaN
  | Fin x, Fin y => Fin (x + y)%Q
  | PosInf, NegInf | NegInf, PosInf => NaN
  | PosInf, _ | _, PosInf => PosInf
  | NegInf, _ | _, NegInf => NegInf
  end.

Definition num_sub (a b : number) : number :=
  match a, b with
  | NaN, _ | _, NaN => NaN
  | Fin x, Fin y => Fin (x - y)%Q
  | PosInf, PosInf | NegInf, NegInf => NaN
  | PosInf, _ | _, NegInf => PosInf
  | NegInf, _ | _, PosInf => NegInf
  end.

(** The infinity of the given sign; a zero sign is the undefined case. *)
Definition signed_inf (s : comparison) : number :=
  match s with
  | Gt => PosInf
  | Lt => NegInf
  | Eq => NaN
  end.

Definition num_sgn (a : number) : option comparison :=
  match a with
  | Fin q => Some (sgn q)
  | PosInf => Some Gt
  | NegInf => Some Lt
  | NaN => None
  end.

Definition sgn_mul (s t : comparison) : comparison :=
  match s, t with
  | Eq, _ | _, Eq => Eq
  | Gt, Gt | Lt, Lt => Gt
  | _, _ => Lt
  end.

Definition num_mul (a b : number) : number :=
  match a, b with
  | Fin x, Fin y => Fin (x * y)%Q
  | _, _ =>
      match num_sgn a, num_sgn b with
      | Some s, Some t => signed_inf (sgn_mul s t)
      | _, _ => NaN
      end
  end.

Definition num_div (a b : number) : number :=
  match a, b with
  | NaN, _ | _, NaN => NaN
  | Fin x, Fin y =>
      match sgn y with
      | Eq => signed_inf (sgn x)
      | _ => Fin (x / y)%Q
      end
  | Fin _, _ => Fin 0
  | _, Fin y =>
      match num_sgn a with
      | Some s => signed_inf (sgn_mul s (match sgn y with Eq => Gt | t => t end))
      | None => NaN
      end
  | _, _ => NaN
  end.

(** [a < b]; false as soon as one side is [NaN]. *)
Definition num_ltb (a b : number) : bool :=
  match a, b with
  | Fin x, Fin y => match (x ?= y)%Q with Lt => true | _ => false end
  | NegInf, Fin _ | NegInf, PosInf | Fin _, PosInf => true
  | _, _ => false
  end.

Definition num_lt (a b : number) : Prop := num_ltb a b = true.

Definition num_le (a b : number) : Prop :=
  match a, b with
  | NaN, _ | _, NaN => False
  | Fin x, Fin y => (x <= y)%Q
  | NegInf, _ | _, PosInf => True
  | _, _ => False
  end.

Definition num_min2 (a b : number) : number :=
  match a, b with
  | NaN, _ | _, NaN => NaN
  | _, _ => if num_ltb b a then b else a
  end.

Definition num_max2 (a b : number) : number :=
  match a, b with
  | NaN, _ | _, NaN => NaN
  | _, _ => if num_ltb a b then b else a
  end.

(** [Math.min(...l)] and [Math.max(...l)]: the empty spread gives
    [Infinity] and [-Infinity]. *)
Definition Math_min (l : list number) : number := fold_right num_min2 PosInf l.
Definition Math_max (l : list number) : number := fold_right num_max2 NegInf l.

(** [Math.round]: the nearest integer, halves towards plus infinity. *)
Definition Math_round (a : number) : number :=
  match a with
  | Fin q => Fin (inject_Z (Qfloor (q + (1 # 2))%Q))
  | _ => a
  end.

(** [a || 0] on numbers: zero and [NaN] are falsy. *)
Definition or_zero (a : number) : number :=
  match a with
  | NaN => Fin 0
  | Fin q => match sgn q with Eq => Fin 0 | _ => a end
  | _ => a
  end.

Definition of_nat (n : nat) : number := Fin (inject_Z (Z.of_nat n)).

(** ** The bulk-insert format: [parseSpec] *)

Module Parsed.
Record t : Type := mk {
  name : jsstring;
  category : jsstring;
  description : jsstring;
  instructions : jsstring
}.
End Parsed.

(** The variables of the loop of [parseSpec]. *)
Record ParseState : Type := mkParseState {
  ps_name : jsstring;
  ps_category : jsstring;
  ps_description : jsstring;
  ps_instructionLines : list jsstring;
  ps_inInstructions : bool
}.

Definition parseInit : ParseState :=
  mkParseState (lit "") (lit "crm") (lit "") [] false.

Definition NAME_ : jsstring := lit "NAME:".
Definition CATEGORY_ : jsstring := lit "CATEGORY:".
Definition DESCRIPTION_ : jsstring := lit "DESCRIPTION:".

(** One iteration of [for (const line of lines)]. *)
Definition parseLine (st : ParseState) (line : jsstring) : ParseState :=
  if startsWith NAME_ line then
    mkParseState (trim (replace NAME_ (lit "") line)) (ps_category st)
      (ps_description st) (ps_instructionLines st) (ps_inInstructions st)
  else if startsWith CATEGORY_ line then
    mkParseState (ps_name st) (trim (replace CATEGORY_ (lit "") line))
      (ps_description st) (ps_instructionLines st) (ps_inInstructions st)
  else if startsWith DESCRIPTION_ line then
    mkParseState (ps_name st) (ps_category st)
      (trim (replace DESCRIPTION_ (lit "") line))
      (ps_instructionLines st) (ps_inInstructions st)
  else if jsstring_eqb (trim line) (lit "---") then
    mkParseState (ps_name st) (ps_category st) (ps_description st)
      (ps_instructionLines st) true
  else if ps_inInstructions st then
    mkParseState (ps_name st) (ps_category st) (ps_description st)
      (ps_instructionLines st ++ [line]) (ps_inInstructions st)
  else st.

Definition specLines (spec : jsstring) : list jsstring := split LF (trim spec).

Definition parseSpec (spec : jsstring) : Parsed.t :=
  let st := fold_left parseLine (specLines spec) parseInit in
  Parsed.mk (ps_name st) (ps_category st) (ps_description st)
    (trim (join [LF] (ps_instructionLines st))).

(** ** Records of the store *)

Module Feature.
Record t : Type := mk {
  id : jsstring;
  name : jsstring;
  description : jsstring;
  category : jsstring;
  priority : number;
  status : jsstring;
  instructions : option jsstring;
  started_at : option jsstring;
  completed_at : option jsstring;
  error_message : option jsstring;
  retry_count : N
}.
End Feature.

(** The object literal passed to [insert] by [addFeature]. *)
Module NewRow.
Record t : Type := mk {
  name : jsstring;
  description : jsstring;
  category : jsstring;
  priority : number;
  status : jsstring;
  instructions : jsstring
}.

(** The row the store creates.  The table definition is not in the
    repository: the columns the insert leaves out are taken to be null, and
    the retry counter zero. *)
Definition to_feature (new_id : jsstring) (r : t) : Feature.t :=
  Feature.mk new_id (name r) (description r) (category r) (priority r)
    (status r) (Some (instructions r)) None None None 0.
End NewRow.

(** The object literal passed to [update]: a field is [None] when the
    literal does not mention it; [error_message: null] is [Some None]. *)
Module Patch.
Record t : Type := mk {
  status : option jsstring;
  priority : option number;
  retry_count : option N;
  error_message : option (option jsstring);
  completed_at : option jsstring
}.

Definition empty : t := mk None None None None None.

Definition apply (p : t) (f : Feature.t) : Feature.t :=
  Feature.mk (Feature.id f) (Feature.name f) (Feature.description f)
    (Feature.category f)
    (default (Feature.priority f) (priority p))
    (default (Feature.status f) (status p))
    (Feature.instructions f)
    (Feature.started_at f)
    (match completed_at p with
     | Some d => Some d
     | None => Feature.completed_at f
     end)
    (default (Feature.error_message f) (error_message p))
    (default (Feature.retry_count f) (retry_count p)).
End Patch.

(** A value of the [forge_config] table as the client sees it: the code
    accepts the text ['true'] and the boolean [true]. *)
Inductive cfgval : Type :=
| VString (s : jsstring)
| VBool (b : bool).

Record Store : Type := mkStore {
  forge_features : list Feature.t;
  forge_config : gmap (list N) cfgval
}.

(** The requests sent to the store. *)
Inductive Request : Type :=
| ReqInsert (row : NewRow.t)
| ReqUpdate (patch : Patch.t) (id : jsstring)
| ReqDelete (id : jsstring)
| ReqUpsert (key : jsstring) (value : cfgval)
| ReqSelect (table : jsstring).

(** What the store answers to an insert. *)
Inductive InsertResponse : Type :=
| Inserted (new_id : jsstring)
| InsertError (message : jsstring).

(** ** State of the component *)

Inductive ToastType : Type := success | error.

Record Toast : Type := mkToast {
  message : jsstring;
  type : ToastType
}.

Record Dashboard : Type := mkDashboard {
  features : list Feature.t;
  enginePaused : bool;
  autoApprove : bool;
  skipOnError : bool;
  specInput : jsstring;
  showAddForm : bool;
  toast : option Toast;
  selectedFeature : option jsstring
}.

(** The initial values of the [useState] hooks. *)
Definition initialDashboard : Dashboard :=
  mkDashboard [] true true false (lit "") false None None.

Record World : Type := mkWorld {
  store : Store;
  requests : list Request;
  pending_loads : nat;
  ui : Dashboard
}.

Definition with_ui (g : Dashboard -> Dashboard) (w : World) : World :=
  mkWorld (store w) (requests w) (pending_loads w) (g (ui w)).

Definition setFeatures (v : list Feature.t) : World -> World :=
  with_ui (fun d => mkDashboard v (enginePaused d) (autoApprove d)
    (skipOnError d) (specInput d) (showAddForm d) (toast d) (selectedFeature d)).

Definition setEnginePaused (v : bool) : World -> World :=
  with_ui (fun d => mkDashboard (features d) v (autoApprove d)
    (skipOnError d) (specInput d) (showAddForm d) (toast d) (selectedFeature d)).

Definition setAutoApprove (v : bool) : World -> World :=
  with_ui (fun d => mkDashboard (features d) (enginePaused d) v
    (skipOnError d) (specInput d) (showAddForm d) (toast d) (selectedFeature d)).

Definition setSkipOnError (v : bool) : World -> World :=
  with_ui (fun d => mkDashboard (features d) (enginePaused d) (autoApprove d)
    v (specInput d) (showAddForm d) (toast d) (selectedFeature d)).

Definition setSpecInput (v : jsstring) : World -> World :=
  with_ui (fun d => mkDashboard (features d) (enginePaused d) (autoApprove d)
    (skipOnError d) v (showAddForm d) (toast d) (selectedFeature d)).

Definition setShowAddForm (v : bool) : World -> World :=
  with_ui (fun d => mkDashboard (features d) (enginePaused d) (autoApprove d)
    (skipOnError d) (specInput d) v (toast d) (selectedFeature d)).

Definition setToast (v : option Toast) : World -> World :=
  with_ui (fun d => mkDashboard (features d) (enginePaused d) (autoApprove d)
    (skipOnError d) (specInput d) (showAddForm d) v (selectedFeature d)).

Definition setSelectedFeature (v : option jsstring) : World -> World :=
  with_ui (fun d => mkDashboard (features d) (enginePaused d) (autoApprove d)
    (skipOnError d) (specInput d) (showAddForm d) (toast d) v).

(** [showToast]: the timer that clears the toast three seconds later is
    not modelled. *)
Definition showToast (msg : jsstring) (ty : ToastType) : World -> World :=
  setToast (Some (mkToast msg ty)).

(** ** Store operations *)

Definition send (r : Request) (w : World) : World :=
  mkWorld (store w) (requests w ++ [r]) (pending_loads w) (ui w).

Definition with_store (g : Store -> Store) (w : World) : World :=
  mkWorld (g (store w)) (requests w) (pending_loads w) (ui w).

(** [from('forge_features').update(patch).eq('id', id)] *)
Definition supabase_update (patch : Patch.t) (id : jsstring) (w : World) : World :=
  with_store (fun s => mkStore
    (List.map (fun f => if jsstring_eqb (Feature.id f) id
                        then Patch.apply patch f else f)
       (forge_features s))
    (forge_config s))
  (send (ReqUpdate patch id) w).

(** [from('forge_features').insert(row)]: a refused insert leaves the
    table as it was. *)
Definition supabase_insert (row : NewRow.t) (resp : InsertResponse) (w : World) : World :=
  match resp with
  | Inserted new_id =>
      with_store (fun s => mkStore
        (forge_features s ++ [NewRow.to_feature new_id row]) (forge_config s))
      (send (ReqInsert row) w)
  | InsertError _ => send (ReqInsert row) w
  end.

(** [from('forge_features').delete().eq('id', id)] *)
Definition supabase_delete (id : jsstring) (w : World) : World :=
  with_store (fun s => mkStore
    (List.filter (fun f => negb (jsstring_eqb (Feature.id f) id))
       (forge_features s))
    (forge_config s))
  (send (ReqDelete id) w).

(** [from('forge_config').upsert({ key, value })] *)
Definition supabase_upsert (key : jsstring) (value : cfgval) (w : World) : World :=
  with_store (fun s => mkStore (forge_features s)
    (<[key := value]> (forge_config s)))
  (send (ReqUpsert key value) w).

(** [String(b)] *)
Definition String_of_bool (b : bool) : jsstring :=
  if b then lit "true" else lit "false".

(** ** Polling: [loadData] *)

(** [order('priority')]: ascending, a value that is not a finite number
    (stored as null) last. *)
Definition priority_leb (a b : number) : bool :=
  match a, b with
  | Fin x, Fin y => Qle_bool x y
  | Fin _, _ => true
  | _, Fin _ => false
  | _, _ => true
  end.

Fixpoint insert_by_priority (f : Feature.t) (l : list Feature.t) : list Feature.t :=
  match l with
  | [] => [f]
  | g :: l' =>
      if priority_leb (Feature.priority f) (Feature.priority g)
      then f :: l
      else g :: insert_by_priority f l'
  end.

(** The order among equal priorities is the store's choice; here rows of
    equal priority keep the order of the table. *)
Definition order_by_priority (l : list Feature.t) : list Feature.t :=
  fold_right insert_by_priority [] l.

(** [row.value === 'true' || row.value === true] *)
Definition config_true (v : cfgval) : bool :=
  match v with
  | VString s => jsstring_eqb s (lit "true")
  | VBool b => b
  end.

Definition load_flag (key : jsstring) (set : bool -> World -> World) (w : World) : World :=
  match forge_config (store w) !! key with
  | Some v => set (config_true v) w
  | None => w
  end.

(** One run of [loadData] in which both selects return data, the rows in
    the order of [order_by_priority]; [loadDataWith] below is a run with
    any answers.  The log table is display only and is left out. *)
Definition loadData (w : World) : World :=
  let w := send (ReqSelect (lit "forge_features")) w in
  let w := setFeatures (order_by_priority (forge_features (store w))) w in
  let w := send (ReqSelect (lit "forge_config")) w in
  let w := load_flag (lit "engine_paused") setEnginePaused w in
  let w := load_flag (lit "auto_approve") setAutoApprove w in
  let w := load_flag (lit "skip_on_error") setSkipOnError w in
  mkWorld (store w) (requests w) (Nat.pred (pending_loads w)) (ui w).

(** The call [loadData()] without [await]. *)
Definition call_loadData (w : World) : World :=
  mkWorld (store w) (requests w) (S (pending_loads w)) (ui w).

(** ** Handlers *)

Definition toggleEngine (w : World) : World :=
  let newValue := negb (enginePaused (ui w)) in
  let w := supabase_upsert (lit "engine_paused") (VString (String_of_bool newValue)) w in
  setEnginePaused newValue w.

Definition isPending (f : Feature.t) : bool :=
  jsstring_eqb (Feature.status f) (lit "pending").

(** [features.filter(f => f.status === 'pending').map(f => f.priority)] *)
Definition pendingPriorities (fs : list Feature.t) : list number :=
  List.map Feature.priority (List.filter isPending fs).

(** The priority [addFeature] gives to the new row. *)
Definition newPriority (startNow : bool) (fs : list Feature.t) : number :=
  let pendingFeatures := List.filter isPending fs in
  let lowestPriority :=
    if (0 <? length pendingFeatures)%nat
    then num_add (Math_max (List.map Feature.priority pendingFeatures)) (Fin 1)
    else Fin 100 in
  if startNow then Fin 0 else lowestPriority.

Definition newRow (parsed : Parsed.t) (prio : number) : NewRow.t :=
  NewRow.mk (Parsed.name parsed)
    (or_else (Parsed.description parsed) (Parsed.name parsed))
    (Parsed.category parsed) prio (lit "pending") (Parsed.instructions parsed).

(** The check mark that opens the success toast. *)
Definition CHECK_MARK : N := 10003.

Definition addFeature (startNow : bool) (resp : InsertResponse) (w : World) : World :=
  let features_ := features (ui w) in
  let enginePaused_ := enginePaused (ui w) in
  let parsed := parseSpec (specInput (ui w)) in
  if negb (truthy (Parsed.name parsed)) then
    showToast (lit "Missing NAME: in spec") error w
  else
    let w := supabase_insert (newRow parsed (newPriority startNow features_)) resp w in
    match resp with
    | InsertError msg => showToast (lit "Failed to add: " ++ msg) error w
    | Inserted _ =>
        let w := showToast
          ([CHECK_MARK] ++ lit " " ++ Parsed.name parsed ++ lit " added to queue")
          success w in
        let w := setSpecInput (lit "") w in
        let w := setShowAddForm false w in
        let w := call_loadData w in
        if startNow && enginePaused_ then
          let w := supabase_upsert (lit "engine_paused") (VString (lit "false")) w in
          setEnginePaused false w
        else w
    end.

Definition moveToTop (id : jsstring) (w : World) : World :=
  let minPriority := Math_min (pendingPriorities (features (ui w))) in
  let w := supabase_update
    (Patch.mk None (Some (num_sub minPriority (Fin 1))) None None None) id w in
  let w := setSelectedFeature None w in
  let w := call_loadData w in
  showToast (lit "Moved to top") success w.

(** The decrement of [moveUp]. *)
Definition MOVE_UP_STEP : Q := 3 # 2.

Definition moveUp (id : jsstring) (w : World) : World :=
  match List.find (fun f => jsstring_eqb (Feature.id f) id) (features (ui w)) with
  | None => w
  | Some feature =>
      let w := supabase_update
        (Patch.mk None
           (Some (num_sub (Feature.priority feature) (Fin MOVE_UP_STEP)))
           None None None) id w in
      let w := setSelectedFeature None w in
      call_loadData w
  end.

Definition skipFeature (id : jsstring) (w : World) : World :=
  let w := supabase_update
    (Patch.mk (Some (lit "skipped")) None None None None) id w in
  let w := setSelectedFeature None w in
  call_loadData w.

Definition retryFeature (id : jsstring) (w : World) : World :=
  let w := supabase_update
    (Patch.mk (Some (lit "pending")) None (Some 0) (Some None) None) id w in
  let w := setSelectedFeature None w in
  call_loadData w.

(** [now] is [new Date().toISOString()]. *)
Definition markCompleted (now : jsstring) (id : jsstring) (w : World) : World :=
  let w := supabase_update
    (Patch.mk (Some (lit "completed")) None None None (Some now)) id w in
  let w := setSelectedFeature None w in
  call_loadData w.

Definition deleteFeature (id : jsstring) (w : World) : World :=
  let w := supabase_delete id w in
  let w := setSelectedFeature None w in
  let w := call_loadData w in
  showToast (lit "Feature deleted") success w.

Definition updateConfig (key : jsstring) (value : bool) (w : World) : World :=
  let w := supabase_upsert key (VString (String_of_bool value)) w in
  let w := if jsstring_eqb key (lit "auto_approve") then setAutoApprove value w else w in
  if jsstring_eqb key (lit "skip_on_error") then setSkipOnError value w else w.

(** ** Derived values *)

Definition count_status (s : string) (fs : list Feature.t) : nat :=
  length (List.filter (fun f => jsstring_eqb (Feature.status f) (lit s)) fs).

Definition completed (fs : list Feature.t) : nat := count_status "completed" fs.
Definition pending (fs : list Feature.t) : nat := count_status "pending" fs.
Definition failed (fs : list Feature.t) : nat := count_status "failed" fs.
Definition inProgress (fs : list Feature.t) : nat := count_status "in_progress" fs.
Definition total (fs : list Feature.t) : nat := length fs.

Definition currentFeature (fs : list Feature.t) : option Feature.t :=
  List.find (fun f => jsstring_eqb (Feature.status f) (lit "in_progress")) fs.

Definition isBuilding (d : Dashboard) : bool := (0 <? inProgress (features d))%nat.
Definition isRunning (d : Dashboard) : bool := isBuilding d || negb (enginePaused d).
Definition isPausing (d : Dashboard) : bool := enginePaused d && isBuilding d.

(** The three texts of the status pill. *)
Inductive Pill : Type := Pausing | Running | Paused.

Definition statusPill (d : Dashboard) : Pill :=
  if isPausing d then Pausing else if isRunning d then Running else Paused.

(** [(completed/total)*100], the number put in the width of the bar. *)
Definition progressWidth (fs : list Feature.t) : number :=
  num_mul (num_div (of_nat (completed fs)) (of_nat (total fs))) (Fin 100).

(** [Math.round((completed/total)*100) || 0], the number of the label. *)
Definition progressLabel (fs : list Feature.t) : number :=
  or_zero (Math_round (progressWidth fs)).

(** ** The queue and the action sheet *)

(** [onClick] of a row of the queue. *)
Definition clickFeature (f : Feature.t) (w : World) : World :=
  if negb (jsstring_eqb (Feature.status f) (lit "in_progress"))
     && negb (jsstring_eqb (Feature.status f) (lit "completed"))
  then setSelectedFeature (Some (Feature.id f)) w
  else w.

Inductive Button : Type :=
| MoveToTopBtn | MoveUpBtn | MarkAsDoneBtn | SkipBtn
| RetryBtn | RequeueBtn | DeleteBtn | CancelBtn.

Definition Button_eqb (a b : Button) : bool :=
  match a, b with
  | MoveToTopBtn, MoveToTopBtn | MoveUpBtn, MoveUpBtn
  | MarkAsDoneBtn, MarkAsDoneBtn | SkipBtn, SkipBtn | RetryBtn, RetryBtn
  | RequeueBtn, RequeueBtn | DeleteBtn, DeleteBtn | CancelBtn, CancelBtn => true
  | _, _ => false
  end.

(** [features.find(f => f.id === selectedFeature)?.status] *)
Definition selectedStatus (d : Dashboard) (sel : jsstring) : option jsstring :=
  Feature.status <$>
    List.find (fun f => jsstring_eqb (Feature.id f) sel) (features d).

Definition status_is (o : option jsstring) (s : string) : bool :=
  match o with
  | Some st => jsstring_eqb st (lit s)
  | None => false
  end.

(** The buttons the action sheet renders; the sheet is under
    [selectedFeature && ...], so it needs a non-empty id. *)
Definition sheetButtons (d : Dashboard) : list Button :=
  match selectedFeature d with
  | None => []
  | Some sel =>
      if truthy sel then
        let st := selectedStatus d sel in
        (if status_is st "pending"
         then [MoveToTopBtn; MoveUpBtn; MarkAsDoneBtn; SkipBtn] else [])
        ++ (if status_is st "failed" then [RetryBtn; SkipBtn] else [])
        ++ (if status_is st "skipped" then [RequeueBtn] else [])
        ++ [DeleteBtn; CancelBtn]
      else []
  end.

(** The handler wired to each button of the sheet. *)
Definition buttonHandler (b : Button) (now : jsstring) (sel : jsstring) : World -> World :=
  match b with
  | MoveToTopBtn => moveToTop sel
  | MoveUpBtn => moveUp sel
  | MarkAsDoneBtn => markCompleted now sel
  | SkipBtn => skipFeature sel
  | RetryBtn | RequeueBtn => retryFeature sel
  | DeleteBtn => deleteFeature sel
  | CancelBtn => setSelectedFeature None
  end.

(** A press on [b]: nothing happens when the sheet does not render it. *)
Definition press (b : Button) (now : jsstring) (w : World) : World :=
  match selectedFeature (ui w) with
  | Some sel =>
      if existsb (Button_eqb b) (sheetButtons (ui w))
      then buttonHandler b now sel w
      else w
  | None => w
  end.

(** ** src/app/page.tsx: the buttons rendered inline in each row *)

Module Page.

Definition rowButtons (f : Feature.t) : list Button :=
  (if jsstring_eqb (Feature.status f) (lit "failed") then [SkipBtn; RetryBtn] else [])
  ++ (if jsstring_eqb (Feature.status f) (lit "pending") then [SkipBtn; MarkAsDoneBtn] else [])
  ++ (if jsstring_eqb (Feature.status f) (lit "skipped") then [RequeueBtn] else []).

Definition skipFeature (id : jsstring) (w : World) : World :=
  call_loadData (supabase_update
    (Patch.mk (Some (lit "skipped")) None None None None) id w).

Definition retryFeature (id : jsstring) (w : World) : World :=
  call_loadData (supabase_update
    (Patch.mk (Some (lit "pending")) None (Some 0) (Some None) None) id w).

Definition markCompleted (now : jsstring) (id : jsstring) (w : World) : World :=
  call_loadData (supabase_update
    (Patch.mk (Some (lit "completed")) None None None (Some now)) id w).

End Page.

(** ** src/unnamed/part_000, first document: the session-based variant *)

Module Legacy.

(** [update({ status: 'pending', retry_count: 0 })]: the patch does not
    mention [error_message]. *)
Definition retryFeature (id : jsstring) (w : World) : World :=
  call_loadData (supabase_update
    (Patch.mk (Some (lit "pending")) None (Some 0) None None) id w).

End Legacy.

(** * Vocabulary of the statements *)

(** The text has no line that starts with [NAME:]. *)
Definition lacksNameLine (spec : jsstring) : Prop :=
  Forall (fun l => startsWith NAME_ l = false) (specLines spec).

(** The last line that starts with [NAME:] has only white space after the
    marker. *)
Definition blankName (spec : jsstring) : Prop :=
  exists pre l post,
    specLines spec = pre ++ l :: post /\
    startsWith NAME_ l = true /\
    forallb isWhiteSpace (drop 5 l) = true /\
    Forall (fun l' => startsWith NAME_ l' = false) post.

(** The text of the specification's example. *)
Definition exampleSpec : jsstring :=
  lit "NAME: Foo" ++ [LF] ++ lit "CATEGORY: crm" ++ [LF]
  ++ lit "DESCRIPTION: does thing" ++ [LF] ++ lit "---" ++ [LF]
  ++ lit "step 1" ++ [LF] ++ lit "step 2".

(** ** Sample worlds *)

Definition sampleFeature (id : string) (prio : Q) (st : string) : Feature.t :=
  Feature.mk (lit id) (lit id) (lit id) (lit "crm") (Fin prio) (lit st)
    None None None None 0.

Definition emptyStore : Store := mkStore [] ∅.

(** The component before its first poll, in front of an empty store. *)
Definition world0 : World := mkWorld emptyStore [] 0 initialDashboard.

(** A store with the given rows, and a client that has just polled it. *)
Definition polled (rows : list Feature.t) : World :=
  loadData (mkWorld (mkStore rows ∅) [] 1 initialDashboard).

(** [onChange] of the text area of the add form. *)
Definition typeSpec (text : jsstring) : World -> World := setSpecInput text.

Definition isUpsert (r : Request) : bool :=
  match r with
  | ReqUpsert _ _ => true
  | _ => false
  end.

(** A write to the feature table by another client or by the worker. *)
Definition elsewhere (g : list Feature.t -> list Feature.t) (w : World) : World :=
  with_store (fun s => mkStore (g (forge_features s)) (forge_config s)) w.

(** A priority read from the store is a finite number, unless a handler
    wrote [Infinity] (move-to-top with no pending feature in the snapshot),
    which the store keeps as null. *)
Definition finite (a : number) : Prop :=
  match a with
  | Fin _ => True
  | _ => False
  end.

(** In the table, every row that carries [id] is strictly before every
    other pending row. *)
Definition strictly_first (id : jsstring) (s : Store) : Prop :=
  forall f g : Feature.t,
    In f (forge_features s) -> Feature.id f = id ->
    In g (forge_features s) -> isPending g = true -> Feature.id g <> id ->
    num_lt (Feature.priority f) (Feature.priority g).

(** A client polls two pending rows; before it polls again another operator
    inserts a third one in front of them. *)
Definition staleWorld : World :=
  elsewhere (fun rows => rows ++ [sampleFeature "c" 1 "pending"])
    (polled [sampleFeature "a" 5 "pending"; sampleFeature "b" 7 "pending"]).

(** The statuses on which the component renders transition buttons. *)
Definition operatorStatus (st : jsstring) : bool :=
  jsstring_eqb st (lit "pending") || jsstring_eqb st (lit "failed")
  || jsstring_eqb st (lit "skipped").

(** The buttons of skip, retry, mark-complete and re-queue. *)
Definition transitionButton (b : Button) : bool :=
  match b with
  | MarkAsDoneBtn | SkipBtn | RetryBtn | RequeueBtn => true
  | _ => false
  end.

(** The handler [op] leaves the table alone when the row it is called on is
    in none of the operator statuses. *)
Definition rejected (op : jsstring -> World -> World) : Prop :=
  forall (w : World) (f : Feature.t),
    In f (forge_features (store w)) ->
    operatorStatus (Feature.status f) = false ->
    forge_features (store (op (Feature.id f) w)) = forge_features (store w).

(** The operator opens the sheet of a pending row; the worker claims the
    row before the next poll. *)
Definition claimedWorld : World :=
  elsewhere (fun _ => [sampleFeature "a" 1 "in_progress"])
    (clickFeature (sampleFeature "a" 1 "pending")
       (polled [sampleFeature "a" 1 "pending"])).

Definition someDate : jsstring := lit "2026-01-01T00:00:00.000Z".

(** Start-now, append, move-to-top, start-now again, each followed by a
    poll. *)
Definition startNowScenario : World :=
  let w := loadData (addFeature true (Inserted (lit "a"))
                       (typeSpec (lit "NAME: A") world0)) in
  let w := loadData (addFeature false (Inserted (lit "b"))
                       (typeSpec (lit "NAME: B") w)) in
  let w := loadData (moveToTop (lit "b") w) in
  loadData (addFeature true (Inserted (lit "c")) (typeSpec (lit "NAME: C") w)).



(** ** Vocabulary of the further properties *)

Definition no_leading_space (s : jsstring) : Prop :=
  match s with
  | [] => True
  | c :: _ => isWhiteSpace c = false
  end.

(** The line starts with one of the three markers. *)
Definition isMarker (l : jsstring) : bool :=
  startsWith NAME_ l || startsWith CATEGORY_ l || startsWith DESCRIPTION_ l.

(** The line reaches the test [line.trim() === '---'] and passes it. *)
Definition actsAsSeparator (l : jsstring) : bool :=
  negb (isMarker l) && jsstring_eqb (trim l) (lit "---").

(** The line reaches the last branch of the loop. *)
Definition plainLine (l : jsstring) : bool :=
  negb (isMarker l) && negb (jsstring_eqb (trim l) (lit "---")).

(** [skipped], the fifth count (src/app/page.tsx). *)
Definition skipped (fs : list Feature.t) : nat := count_status "skipped" fs.

(** What one row adds to the count of a status. *)
Definition counts_as (s : string) (f : Feature.t) : nat :=
  if jsstring_eqb (Feature.status f) (lit s) then 1%nat else 0%nat.

(** The three text variables of the loop are trimmed. *)
Definition fields_trimmed (st : ParseState) : Prop :=
  trim (ps_name st) = ps_name st
  /\ trim (ps_category st) = ps_category st
  /\ trim (ps_description st) = ps_description st.

(** What the operator can do on the page.  The settings panel and the
    overlays are not part of the state: an action is performed whenever its
    handler can run, so the sequences of actions include all the real ones. *)
Inductive Action : Type :=
| Poll
| ToggleEngine
| OpenAddForm
| CloseAddForm
| TypeSpec (text : jsstring)
| AddToQueue (resp : InsertResponse)
| StartNow (resp : InsertResponse)
| ClickRow (i : nat)
| Press (b : Button) (now : jsstring)
| ToggleAutoApprove
| ToggleSkipOnError.

Definition perform (a : Action) (w : World) : World :=
  match a with
  | Poll => loadData w
  | ToggleEngine => toggleEngine w
  | OpenAddForm => setShowAddForm true w
  | CloseAddForm => setShowAddForm false w
  | TypeSpec text => if showAddForm (ui w) then setSpecInput text w else w
  | AddToQueue resp => if showAddForm (ui w) then addFeature false resp w else w
  | StartNow resp => if showAddForm (ui w) then addFeature true resp w else w
  | ClickRow i =>
      match features (ui w) !! i with
      | Some f => clickFeature f w
      | None => w
      end
  | Press b now => press b now w
  | ToggleAutoApprove =>
      updateConfig (lit "auto_approve") (negb (autoApprove (ui w))) w
  | ToggleSkipOnError =>
      updateConfig (lit "skip_on_error") (negb (skipOnError (ui w))) w
  end.

Definition performAll (l : list Action) (w : World) : World :=
  fold_left (fun w a => perform a w) l w.

(** The statuses that only the worker gives. *)
Definition workerStatus (st : jsstring) : bool :=
  jsstring_eqb st (lit "in_progress") || jsstring_eqb st (lit "failed").

(** The three keys of the configuration the component writes. *)
Definition knownKeys : gset (list N) :=
  {[ lit "engine_paused"; lit "auto_approve"; lit "skip_on_error" ]}.

Definition hasId (id : jsstring) (f : Feature.t) : bool :=
  jsstring_eqb (Feature.id f) id.

(** The statuses of the snapshot on which the sheet renders a button. *)
Definition offeredOn (st : option jsstring) (b : Button) : bool :=
  match b with
  | MoveToTopBtn | MoveUpBtn | MarkAsDoneBtn => status_is st "pending"
  | SkipBtn => status_is st "pending" || status_is st "failed"
  | RetryBtn => status_is st "failed"
  | RequeueBtn => status_is st "skipped"
  | DeleteBtn | CancelBtn => true
  end.

(** [f'] is the row [f] after some writes of the component: the columns
    the component never writes are the same, and the status is the same or
    one that the component gives. *)
Definition evolves (f f' : Feature.t) : Prop :=
  Feature.id f' = Feature.id f
  /\ Feature.name f' = Feature.name f
  /\ Feature.description f' = Feature.description f
  /\ Feature.category f' = Feature.category f
  /\ Feature.instructions f' = Feature.instructions f
  /\ Feature.started_at f' = Feature.started_at f
  /\ (Feature.status f' = Feature.status f
      \/ workerStatus (Feature.status f') = false).

(** [f'] has the shape of a row made by add-feature. *)
Definition created (f' : Feature.t) : Prop :=
  Feature.started_at f' = None
  /\ Feature.instructions f' <> None
  /\ Feature.name f' <> []
  /\ workerStatus (Feature.status f') = false.

(** The ids the store has given to the add-feature actions. *)
Definition idsOf (a : Action) : list jsstring :=
  match a with
  | AddToQueue (Inserted i) | StartNow (Inserted i) => [i]
  | _ => []
  end.

Definition insertedIds (acts : list Action) : list jsstring :=
  List.flat_map idsOf acts.

(** Where the rows of [rows'] come from: first, and in the order of [rows],
    rows of [rows] after some writes of the component ([sub] is what is
    left of [rows] once the deleted rows are taken out); then rows made by
    add-feature, whose ids are, in order, among [ids]. *)
Definition provenance (ids : list jsstring) (rows rows' : list Feature.t) : Prop :=
  exists sub kept added,
    rows' = kept ++ added
    /\ sub `sublist_of` rows
    /\ Forall2 evolves sub kept
    /\ Forall created added
    /\ List.map Feature.id added `sublist_of` ids.

(** [f'] has the texts of the row [r] that an insert request carried. *)
Definition insertedFrom (r : NewRow.t) (f' : Feature.t) : Prop :=
  Feature.name f' = NewRow.name r
  /\ Feature.description f' = NewRow.description r
  /\ Feature.category f' = NewRow.category r
  /\ Feature.instructions f' = Some (NewRow.instructions r).

(** Between [w] and [w'] the component has sent the requests [sent]; a row
    of [w] is still there, its own columns unchanged, unless a delete of
    its id was sent; a row of [w'] is a row of [w], its own columns
    unchanged, or has the texts of an insert that was sent. *)
Definition justified (w w' : World) : Prop :=
  exists sent : list Request,
    requests w' = requests w ++ sent
    /\ (forall f, In f (forge_features (store w)) ->
          (exists f', In f' (forge_features (store w')) /\ evolves f f')
          \/ In (ReqDelete (Feature.id f)) sent)
    /\ (forall f', In f' (forge_features (store w')) ->
          (exists f, In f (forge_features (store w)) /\ evolves f f')
          \/ (created f' /\ exists r, In (ReqInsert r) sent /\ insertedFrom r f')).

(** A patch whose status, if any, is not a worker status. *)
Definition operatorPatch (p : Patch.t) : Prop :=
  match Patch.status p with
  | Some s => workerStatus s = false
  | None => True
  end.

(** Every value of [c'] is the value of [c] at the same key, or one of the
    two texts under a key of the component. *)
Definition config_descends (c c' : gmap (list N) cfgval) : Prop :=
  forall k v, c' !! k = Some v ->
    c !! k = Some v
    \/ (k ∈ knownKeys /\ (v = VString (lit "true") \/ v = VString (lit "false"))).

(** [n] times: move-up on [id], then the poll. *)
Definition moveUpRounds (id : jsstring) (n : nat) (w : World) : World :=
  Nat.iter n (fun w => loadData (moveUp id w)) w.

(** The snapshot holds the rows of the present table (in any order), the
    table holds a row with [id], and every such row has priority [q]. *)
Definition polledAt (id : jsstring) (q : Q) (w : World) : Prop :=
  Permutation (features (ui w)) (forge_features (store w))
  /\ (exists f, In f (forge_features (store w)) /\ Feature.id f = id)
  /\ (forall f, In f (forge_features (store w)) -> Feature.id f = id ->
        Feature.priority f = Fin q).

(** The rows come in ascending order of priority, as far as the priorities
    are finite. *)
Definition ascending (rows : list Feature.t) : Prop :=
  StronglySorted
    (fun a b => forall x y : Q,
       Feature.priority a = Fin x -> Feature.priority b = Fin y -> (x <= y)%Q)
    rows.

(** The status of the row is none of the five that are counted. *)
Definition otherStatus (f : Feature.t) : bool :=
  negb (jsstring_eqb (Feature.status f) (lit "completed")
        || jsstring_eqb (Feature.status f) (lit "pending")
        || jsstring_eqb (Feature.status f) (lit "failed")
        || jsstring_eqb (Feature.status f) (lit "in_progress")
        || jsstring_eqb (Feature.status f) (lit "skipped")).

(** ** Exact priorities *)

(** The priorities the component itself produces are whole numbers and
    halves (0, 100, max + 1, min - 1, p - 1.5).  On a value [k/2] with
    [|k| <= 2^52] each addition and subtraction of the handlers has a result
    [k'/2] with [|k'| < 2^53], which a double holds exactly: there [num_add]
    and [num_sub] are what the code computes.  From 2^53 on the code rounds
    (see [double_rounds_at_2_53]). *)
Definition exactPriorityb (a : number) : bool :=
  match a with
  | Fin q =>
      ((2 * Qnum q) mod Z.pos (Qden q) =? 0)%Z
      && (Z.abs ((2 * Qnum q) / Z.pos (Qden q)) <=? 2 ^ 52)%Z
  | _ => false
  end.

Definition exactPriority (a : number) : Prop := exactPriorityb a = true.

(** The double nearest to a whole number, in the binary64 of the standard
    library. *)
Definition double_of_Z (z : Z) : spec_float := binary_normalize 53 1024 z 0 false.

(** ** A poll with any answers *)

Definition load_flag_from (cfg : gmap (list N) cfgval) (key : jsstring)
    (set : bool -> World -> World) (w : World) : World :=
  match cfg !! key with
  | Some v => set (config_true v) w
  | None => w
  end.

(** A run of [loadData] with the answers of the two selects it uses:
    [None] is a select that comes back without data, which
    [if (featuresData)] and [if (configData)] skip. *)
Definition loadDataWith (featuresData : option (list Feature.t))
    (configData : option (gmap (list N) cfgval)) (w : World) : World :=
  let w := send (ReqSelect (lit "forge_features")) w in
  let w := match featuresData with
           | Some rows => setFeatures rows w
           | None => w
           end in
  let w := send (ReqSelect (lit "forge_config")) w in
  let w := match configData with
           | Some cfg =>
               load_flag_from cfg (lit "skip_on_error") setSkipOnError
                 (load_flag_from cfg (lit "auto_approve") setAutoApprove
                    (load_flag_from cfg (lit "engine_paused") setEnginePaused w))
           | None => w
           end in
  mkWorld (store w) (requests w) (Nat.pred (pending_loads w)) (ui w).

(** [n] rounds of move-up on [id], each followed by a poll whose select of
    the features answers with the rows of the table, in any order, and
    whose select of the configuration answers or not. *)
Inductive moveUpRun (id : jsstring) : nat -> World -> World -> Prop :=
| moveUpRun_O (w : World) : moveUpRun id 0 w w
| moveUpRun_S (n : nat) (w w' : World) (reply : list Feature.t)
    (configData : option (gmap (list N) cfgval)) :
    moveUpRun id n w w' ->
    Permutation reply (forge_features (store (moveUp id w'))) ->
    moveUpRun id (S n) w (loadDataWith (Some reply) configData (moveUp id w')).

(** * Properties *)

(** ** Strings *)

Lemma jsstring_eqb_eq (a b : jsstring) : jsstring_eqb a b = true <-> a = b.
Proof.
  revert b. induction a as [|x a IH]; intros [|y b]; simpl; split;
    try congruence; try reflexivity.
  - intros H. apply andb_prop in H as [Hx Hab].
    apply N.eqb_eq in Hx. apply IH in Hab. congruence.
  - intros H. injection H as -> ->. rewrite N.eqb_refl. simpl. now apply IH.
Qed.

Lemma jsstring_eqb_refl (a : jsstring) : jsstring_eqb a a = true.
Proof. now apply jsstring_eqb_eq. Qed.

Lemma jsstring_eqb_neq (a b : jsstring) : jsstring_eqb a b = false <-> a <> b.
Proof.
  split.
  - intros H E. apply jsstring_eqb_eq in E. congruence.
  - intros H. destruct (jsstring_eqb a b) eqn:E; [|reflexivity].
    apply jsstring_eqb_eq in E. contradiction.
Qed.

(** Removing a marker the line starts with removes exactly the marker. *)
Lemma replace_prefix (pat s : jsstring) :
  startsWith pat s = true -> replace pat (lit "") s = drop (length pat) s.
Proof. intros H. destruct s; simpl; rewrite H; reflexivity. Qed.

Lemma trimStart_blank (s : jsstring) :
  forallb isWhiteSpace s = true -> trimStart s = [].
Proof.
  induction s as [|c s IH]; simpl; [reflexivity|].
  intros H. apply andb_prop in H as [Hc Hs]. rewrite Hc. auto.
Qed.

Lemma trim_blank (s : jsstring) : forallb isWhiteSpace s = true -> trim s = [].
Proof. intros H. unfold trim. rewrite trimStart_blank by assumption. reflexivity. Qed.

(** ** [parseSpec]: what a line can change *)

Ltac parse_cases :=
  unfold parseLine;
  repeat match goal with
         | |- context [if ?b then _ else _] => destruct b eqn:?
         end;
  simpl; try congruence.

Lemma parseLine_name (st : ParseState) (line : jsstring) :
  startsWith NAME_ line = false -> ps_name (parseLine st line) = ps_name st.
Proof. intros H. parse_cases. Qed.

Lemma parseLine_category (st : ParseState) (line : jsstring) :
  startsWith CATEGORY_ line = false ->
  ps_category (parseLine st line) = ps_category st.
Proof. intros H. parse_cases. Qed.

Lemma parseLine_description (st : ParseState) (line : jsstring) :
  startsWith DESCRIPTION_ line = false ->
  ps_description (parseLine st line) = ps_description st.
Proof. intros H. parse_cases. Qed.

Lemma parseLine_name_marker (st : ParseState) (line : jsstring) :
  startsWith NAME_ line = true ->
  ps_name (parseLine st line) = trim (drop 5 line).
Proof.
  intros H. unfold parseLine. rewrite H. simpl.
  rewrite replace_prefix by assumption. reflexivity.
Qed.

Section Unchanged.

(** A field that no line of [lines] changes keeps its value through the
    loop. *)
Context {A : Type} (field : ParseState -> A) (marker : jsstring).
Hypothesis line_keeps : forall st line,
  startsWith marker line = false -> field (parseLine st line) = field st.

Lemma loop_keeps (lines : list jsstring) (st : ParseState) :
  Forall (fun l => startsWith marker l = false) lines ->
  field (fold_left parseLine lines st) = field st.
Proof.
  intros H. revert st. induction H as [|l lines Hl _ IH]; intros st; simpl.
  - reflexivity.
  - rewrite IH. now apply line_keeps.
Qed.

End Unchanged.

Lemma parseSpec_lacksNameLine (spec : jsstring) :
  lacksNameLine spec -> Parsed.name (parseSpec spec) = [].
Proof.
  intros H. unfold parseSpec. simpl.
  now rewrite (loop_keeps ps_name NAME_ parseLine_name).
Qed.

Lemma parseSpec_blankName (spec : jsstring) :
  blankName spec -> Parsed.name (parseSpec spec) = [].
Proof.
  intros (pre & l & post & Hlines & Hl & Hblank & Hpost).
  unfold parseSpec. simpl. rewrite Hlines, fold_left_app. simpl.
  rewrite (loop_keeps ps_name NAME_ parseLine_name) by assumption.
  rewrite parseLine_name_marker by assumption.
  now apply trim_blank.
Qed.

Lemma addFeature_inserted_row (startNow : bool) (new_id : jsstring) (w : World) :
  truthy (Parsed.name (parseSpec (specInput (ui w)))) = true ->
  forge_features (store (addFeature startNow (Inserted new_id) w)) =
  forge_features (store w) ++
    [NewRow.to_feature new_id
       (newRow (parseSpec (specInput (ui w)))
          (newPriority startNow (features (ui w))))].
Proof.
  intros H. unfold addFeature. rewrite H. simpl.
  destruct (startNow && enginePaused (ui w)); reflexivity.
Qed.

(** [parsed.description || parsed.name] with an empty description. *)
Lemma newRow_description_default (parsed : Parsed.t) (prio : number) :
  Parsed.description parsed = [] ->
  NewRow.description (newRow parsed prio) = Parsed.name parsed.
Proof. intros H. simpl. now rewrite H. Qed.

(** C8. Parsing the example text gives name Foo, category crm, description
    "does thing" and the two instruction lines; for every text, when no line
    starts with CATEGORY: the category is the baseline [crm], and when no
    line starts with DESCRIPTION: the row that add-feature inserts has the
    name as its description. *)
Theorem parseSpec_example_and_defaults :
  parseSpec exampleSpec =
    Parsed.mk (lit "Foo") (lit "crm") (lit "does thing")
      (lit "step 1" ++ [LF] ++ lit "step 2")
  /\ (forall spec : jsstring,
        Forall (fun l => startsWith CATEGORY_ l = false) (specLines spec) ->
        Parsed.category (parseSpec spec) = lit "crm")
  /\ (forall (w : World) (startNow : bool) (new_id : jsstring),
        Forall (fun l => startsWith DESCRIPTION_ l = false)
          (specLines (specInput (ui w))) ->
        truthy (Parsed.name (parseSpec (specInput (ui w)))) = true ->
        exists f : Feature.t,
          last (forge_features (store (addFeature startNow (Inserted new_id) w)))
            = Some f
          /\ Feature.id f = new_id
          /\ Feature.name f = Parsed.name (parseSpec (specInput (ui w)))
          /\ Feature.description f = Parsed.name (parseSpec (specInput (ui w)))).
Proof.
  split; [vm_compute; reflexivity|]. split.
  - intros spec H. unfold parseSpec. simpl.
    now rewrite (loop_keeps ps_category CATEGORY_ parseLine_category).
  - intros w startNow new_id Hdesc Hname.
    rewrite addFeature_inserted_row by assumption.
    eexists. split; [apply last_snoc|].
    split; [reflexivity|]. split; [reflexivity|].
    apply newRow_description_default.
    unfold parseSpec. simpl.
    now rewrite (loop_keeps ps_description DESCRIPTION_ parseLine_description).
Qed.

(** C9. When the text has no NAME: line, or only white space after the
    marker, add-feature sends nothing to the store, leaves the store as it
    is, and its only effect is the error toast. *)
Theorem addFeature_rejects_missing_name
    (startNow : bool) (resp : InsertResponse) (w : World) :
  lacksNameLine (specInput (ui w)) \/ blankName (specInput (ui w)) ->
  store (addFeature startNow resp w) = store w
  /\ requests (addFeature startNow resp w) = requests w
  /\ pending_loads (addFeature startNow resp w) = pending_loads w
  /\ addFeature startNow resp w = showToast (lit "Missing NAME: in spec") error w.
Proof.
  intros H.
  assert (Hname : Parsed.name (parseSpec (specInput (ui w))) = []).
  { destruct H; [now apply parseSpec_lacksNameLine | now apply parseSpec_blankName]. }
  unfold addFeature. rewrite Hname. simpl. repeat split.
Qed.

Lemma parseSpec_example_and_defaults_witness :
  Parsed.category (parseSpec (lit "NAME: Foo")) = lit "crm"
  /\ exists f : Feature.t,
       last (forge_features (store
         (addFeature false (Inserted (lit "f1")) (typeSpec (lit "NAME: Foo") world0))))
         = Some f
       /\ Feature.id f = lit "f1"
       /\ Feature.name f = lit "Foo"
       /\ Feature.description f = lit "Foo".
Proof.
  destruct parseSpec_example_and_defaults as (_ & Hcategory & Hdescription).
  split.
  - apply Hcategory. vm_compute. repeat constructor.
  - apply (Hdescription (typeSpec (lit "NAME: Foo") world0) false (lit "f1")).
    + vm_compute. repeat constructor.
    + reflexivity.
Defined.

Lemma addFeature_rejects_missing_name_witness :
  store (addFeature true (Inserted (lit "f1")) (typeSpec (lit "CATEGORY: crm") world0))
    = emptyStore
  /\ requests (addFeature true (Inserted (lit "f1")) (typeSpec (lit "NAME:  ") world0))
    = [].
Proof.
  split.
  - apply (addFeature_rejects_missing_name true (Inserted (lit "f1"))
             (typeSpec (lit "CATEGORY: crm") world0)).
    left. vm_compute. repeat constructor.
  - apply (addFeature_rejects_missing_name true (Inserted (lit "f1"))
             (typeSpec (lit "NAME:  ") world0)).
    right. exists [], (lit "NAME:"), []. vm_compute. repeat constructor.
Defined.

(** ** The engine flag and add-feature *)

(** C10. A successful add-feature with start-now, called while the
    component's enginePaused flag is true, sends the insert and then the
    upsert of engine_paused = 'false', which is the only change to the
    configuration; add-feature without start-now sends no upsert and leaves
    every configuration key as it was, whatever the store answers. *)
Theorem addFeature_unpauses_only_on_startNow :
  (forall (w : World) (new_id : jsstring),
     truthy (Parsed.name (parseSpec (specInput (ui w)))) = true ->
     enginePaused (ui w) = true ->
     requests (addFeature true (Inserted new_id) w) =
       requests w ++
         [ReqInsert (newRow (parseSpec (specInput (ui w))) (Fin 0));
          ReqUpsert (lit "engine_paused") (VString (lit "false"))]
     /\ forge_config (store (addFeature true (Inserted new_id) w)) =
          <[lit "engine_paused" := VString (lit "false")]> (forge_config (store w))
     /\ enginePaused (ui (addFeature true (Inserted new_id) w)) = false)
  /\ (forall (w : World) (resp : InsertResponse),
        forge_config (store (addFeature false resp w)) = forge_config (store w)
        /\ exists sent : list Request,
             requests (addFeature false resp w) = requests w ++ sent
             /\ forallb (fun r => negb (isUpsert r)) sent = true).
Proof.
  split.
  - intros w new_id Hname Hpaused. unfold addFeature.
    rewrite Hname, Hpaused. simpl. rewrite <- app_assoc. repeat split.
  - intros w resp. unfold addFeature.
    destruct (truthy (Parsed.name (parseSpec (specInput (ui w))))); simpl.
    + destruct resp; simpl; (split; [reflexivity|]); eexists; split;
        try reflexivity; reflexivity.
    + split; [reflexivity|]. exists []. now rewrite app_nil_r.
Qed.

Lemma addFeature_unpauses_only_on_startNow_witness :
  forge_config (store
    (addFeature true (Inserted (lit "f1")) (typeSpec (lit "NAME: Foo") world0)))
  !! lit "engine_paused" = Some (VString (lit "false")).
Proof.
  destruct addFeature_unpauses_only_on_startNow as [Hstart _].
  destruct (Hstart (typeSpec (lit "NAME: Foo") world0) (lit "f1"))
    as (_ & Hconfig & _); [reflexivity | reflexivity |].
  rewrite Hconfig. apply lookup_insert_eq.
Defined.

(** ** The status pill *)

(** C4. The pill shows Pausing when the engine is paused and a feature is
    in progress, Paused when it is paused and none is, and Running when it
    is not paused, whatever the number of features in progress. *)
Theorem statusPill_cases (d : Dashboard) :
  (enginePaused d = true -> (0 < inProgress (features d))%nat ->
     statusPill d = Pausing)
  /\ (enginePaused d = true -> inProgress (features d) = 0%nat ->
        statusPill d = Paused)
  /\ (enginePaused d = false -> statusPill d = Running).
Proof.
  unfold statusPill, isPausing, isRunning, isBuilding. repeat split.
  - intros -> H. apply Nat.ltb_lt in H. now rewrite H.
  - intros -> H. now rewrite H.
  - intros ->. simpl. now rewrite orb_true_r.
Qed.

Lemma statusPill_cases_witness :
  statusPill (ui (polled [sampleFeature "a" 1 "in_progress"])) = Pausing
  /\ statusPill (ui (polled [sampleFeature "a" 1 "pending"])) = Paused
  /\ statusPill (ui (toggleEngine (polled [sampleFeature "a" 1 "in_progress"])))
     = Running.
Proof.
  split; [|split].
  - apply (statusPill_cases (ui (polled [sampleFeature "a" 1 "in_progress"])));
      [reflexivity | vm_compute; lia].
  - apply (statusPill_cases (ui (polled [sampleFeature "a" 1 "pending"])));
      reflexivity.
  - apply (statusPill_cases
             (ui (toggleEngine (polled [sampleFeature "a" 1 "in_progress"])))).
    reflexivity.
Defined.

(** ** Progress *)

Lemma sgn_of_pos (n : nat) : sgn (inject_Z (Z.of_nat (S n))) = Gt.
Proof. reflexivity. Qed.

(** With at least one feature the width is the exact percentage. *)
Lemma progressWidth_nonempty (fs : list Feature.t) :
  (0 < total fs)%nat ->
  progressWidth fs =
    Fin (inject_Z (Z.of_nat (completed fs)) / inject_Z (Z.of_nat (total fs)) * 100).
Proof.
  intros H. unfold progressWidth, of_nat, num_div.
  destruct (total fs) as [|n]; [lia|]. now rewrite sgn_of_pos.
Qed.

(** C5, on the empty backlog: the division is 0/0, the width of the bar is
    [NaN], and only the label falls back to 0. *)
Theorem progress_empty_backlog :
  total [] = 0%nat
  /\ num_div (of_nat (completed [])) (of_nat (total [])) = NaN
  /\ progressWidth [] = NaN
  /\ progressLabel [] = Fin 0.
Proof. repeat split. Qed.

(** ** Transitions *)

Lemma supabase_update_store (patch : Patch.t) (id : jsstring) (w : World) :
  forge_features (store (supabase_update patch id w)) =
  List.map (fun f => if jsstring_eqb (Feature.id f) id then Patch.apply patch f else f)
    (forge_features (store w)).
Proof. reflexivity. Qed.

(** A row that carries [id] after an update is a patched row. *)
Lemma updated_row (patch : Patch.t) (id : jsstring) (w : World) (f' : Feature.t) :
  In f' (forge_features (store (supabase_update patch id w))) ->
  Feature.id f' = id ->
  exists f, In f (forge_features (store w)) /\ Feature.id f = id
            /\ f' = Patch.apply patch f.
Proof.
  rewrite supabase_update_store. intros Hin Hid.
  apply in_map_iff in Hin as (f & Hf & Hin).
  destruct (jsstring_eqb (Feature.id f) id) eqn:E.
  - exists f. apply jsstring_eqb_eq in E. auto.
  - apply jsstring_eqb_neq in E. subst f'. contradiction.
Qed.

(** Every row that carries [id] is patched, the others are kept. *)
Lemma update_patches (patch : Patch.t) (id : jsstring) (w : World) (f : Feature.t) :
  In f (forge_features (store w)) ->
  In (if jsstring_eqb (Feature.id f) id then Patch.apply patch f else f)
    (forge_features (store (supabase_update patch id w))).
Proof.
  intros H. rewrite supabase_update_store.
  apply (in_map (fun f => if jsstring_eqb (Feature.id f) id
                          then Patch.apply patch f else f)). exact H.
Qed.

(** Retry in the action-sheet variant and in src/app/page.tsx: the row
    becomes pending, its error is cleared and its counter is zero. *)
Lemma retryFeature_resets (id : jsstring) (w : World) (f' : Feature.t) :
  In f' (forge_features (store (retryFeature id w)))
  \/ In f' (forge_features (store (Page.retryFeature id w))) ->
  Feature.id f' = id ->
  Feature.status f' = lit "pending"
  /\ Feature.error_message f' = None
  /\ Feature.retry_count f' = 0.
Proof.
  intros H Hid.
  assert (Hin : In f' (forge_features (store (supabase_update
            (Patch.mk (Some (lit "pending")) None (Some 0) (Some None) None) id w))))
    by (destruct H; exact H).
  destruct (updated_row _ _ _ _ Hin Hid) as (f & _ & _ & ->). repeat split.
Qed.

(** C3, in the session-based variant: the patch of retry does not mention
    the error, so a failed row comes back pending with its old error
    message. *)
Theorem Legacy_retryFeature_keeps_error_message :
  let failedRow :=
    Feature.mk (lit "a") (lit "A") (lit "A") (lit "crm") (Fin 1) (lit "failed")
      None None None (Some (lit "boom")) 3 in
  forge_features (store (Legacy.retryFeature (lit "a") (polled [failedRow]))) =
    [Feature.mk (lit "a") (lit "A") (lit "A") (lit "crm") (Fin 1) (lit "pending")
       None None None (Some (lit "boom")) 0]
  /\ forge_features (store (retryFeature (lit "a") (polled [failedRow]))) =
    [Feature.mk (lit "a") (lit "A") (lit "A") (lit "crm") (Fin 1) (lit "pending")
       None None None None 0].
Proof. split; reflexivity. Qed.

(** ** Numbers *)

Lemma num_ltb_Fin (x y : Q) : num_ltb (Fin x) (Fin y) = true <-> (x < y)%Q.
Proof. simpl. rewrite Qlt_alt. destruct (x ?= y)%Q; split; congruence. Qed.

Lemma finite_inv (a : number) : finite a -> exists q, a = Fin q.
Proof. destruct a; simpl; try contradiction. eauto. Qed.

(** Where the exact range ends: at 2^53 one more or one less is lost, below
    2^51 a step of 1.5 is kept. *)
Lemma double_rounds_at_2_53 :
  SFsub 53 1024 (double_of_Z (- 2 ^ 53)) (double_of_Z 1) = double_of_Z (- 2 ^ 53)
  /\ SFadd 53 1024 (double_of_Z (2 ^ 53)) (double_of_Z 1) = double_of_Z (2 ^ 53)
  /\ SFsub 53 1024 (double_of_Z (- 2 ^ 51)) (binary_normalize 53 1024 3 (-1) false)
       = binary_normalize 53 1024 (- 2 ^ 52 - 3) (-1) false.
Proof. vm_compute. repeat split. Qed.

Lemma exactPriority_finite (a : number) : exactPriority a -> finite a.
Proof. destruct a; simpl; try discriminate. intros _. exact I. Qed.

Lemma exact_all_finite (l : list number) : Forall exactPriority l -> Forall finite l.
Proof. apply List.Forall_impl, exactPriority_finite. Qed.

(** [Math.min] of finite numbers, at least one: the least of them. *)
Lemma Math_min_finite (l : list number) :
  l <> [] -> Forall finite l ->
  exists m : Q,
    Math_min l = Fin m /\ In (Fin m) l /\ forall q, In (Fin q) l -> (m <= q)%Q.
Proof.
  induction l as [|a l IH]; [congruence|]. intros _ Hfin.
  inversion Hfin as [|? ? Ha Hl]; subst.
  destruct (finite_inv a Ha) as [x ->].
  destruct l as [|b l'].
  - exists x. split; [reflexivity|]. split; [now left|].
    intros q [E|[]]. injection E as <-. apply Qle_refl.
  - destruct IH as (m & Hm & Hin & Hle); [congruence | assumption |].
    change (Math_min (Fin x :: b :: l'))
      with (num_min2 (Fin x) (Math_min (b :: l'))).
    rewrite Hm. unfold num_min2.
    destruct (num_ltb (Fin m) (Fin x)) eqn:E.
    + apply num_ltb_Fin in E. exists m.
      split; [reflexivity|]. split; [now right|].
      intros q [Eq|Hq]; [injection Eq as <-; lra | now apply Hle].
    + assert (Hge : ~ (m < x)%Q) by (rewrite <- num_ltb_Fin; congruence).
      exists x. split; [reflexivity|]. split; [now left|].
      intros q [Eq|Hq]; [injection Eq as <-; lra |].
      specialize (Hle q Hq). lra.
Qed.

(** [Math.max] of finite numbers, at least one: the greatest of them. *)
Lemma Math_max_finite (l : list number) :
  l <> [] -> Forall finite l ->
  exists M : Q,
    Math_max l = Fin M /\ In (Fin M) l /\ forall q, In (Fin q) l -> (q <= M)%Q.
Proof.
  induction l as [|a l IH]; [congruence|]. intros _ Hfin.
  inversion Hfin as [|? ? Ha Hl]; subst.
  destruct (finite_inv a Ha) as [x ->].
  destruct l as [|b l'].
  - exists x. split; [reflexivity|]. split; [now left|].
    intros q [E|[]]. injection E as <-. apply Qle_refl.
  - destruct IH as (M & HM & Hin & Hle); [congruence | assumption |].
    change (Math_max (Fin x :: b :: l'))
      with (num_max2 (Fin x) (Math_max (b :: l'))).
    rewrite HM. unfold num_max2.
    destruct (num_ltb (Fin x) (Fin M)) eqn:E.
    + apply num_ltb_Fin in E. exists M.
      split; [reflexivity|]. split; [now right|].
      intros q [Eq|Hq]; [injection Eq as <-; lra | now apply Hle].
    + assert (Hge : ~ (x < M)%Q) by (rewrite <- num_ltb_Fin; congruence).
      exists x. split; [reflexivity|]. split; [now left|].
      intros q [Eq|Hq]; [injection Eq as <-; lra |].
      specialize (Hle q Hq). lra.
Qed.

Lemma pending_priority_in (fs : list Feature.t) (g : Feature.t) :
  In g fs -> isPending g = true -> In (Feature.priority g) (pendingPriorities fs).
Proof. intros Hin Hp. apply in_map, List.filter_In. auto. Qed.

(** One below the least is strictly below all. *)
Lemma below_least (l : list number) (m : Q) (p : number) :
  Forall finite l -> (forall q, In (Fin q) l -> (m <= q)%Q) ->
  In p l -> num_lt (Fin (m - 1)) p.
Proof.
  intros Hfin Hle Hin.
  destruct (finite_inv p) as [q ->];
    [exact (proj1 (List.Forall_forall _ _) Hfin p Hin)|].
  apply num_ltb_Fin. specialize (Hle q Hin). lra.
Qed.

(** A row whose id is not the one updated is a row of the old table. *)
Lemma untouched_row (patch : Patch.t) (id : jsstring) (w : World) (g : Feature.t) :
  In g (forge_features (store (supabase_update patch id w))) ->
  Feature.id g <> id ->
  In g (forge_features (store w)).
Proof.
  rewrite supabase_update_store. intros Hin Hid.
  apply in_map_iff in Hin as (g0 & Hg & Hin).
  destruct (jsstring_eqb (Feature.id g0) id) eqn:E.
  - apply jsstring_eqb_eq in E. subst g. contradiction.
  - now subst g.
Qed.

(** ** Move to top *)

(** C1, as stated, fails on a snapshot that is behind the store: the row
    moved to the top gets 5 - 1 = 4, behind the row of priority 1 that was
    inserted after the poll. *)
Lemma moveToTop_stale_snapshot_counterexample :
  pendingPriorities (forge_features (store staleWorld)) <> []
  /\ ~ strictly_first (lit "b") (store (moveToTop (lit "b") staleWorld)).
Proof.
  split; [discriminate|]. intros H.
  specialize (H (sampleFeature "b" 4 "pending") (sampleFeature "c" 1 "pending")).
  assert (Hlt : num_lt (Fin 4) (Fin 1)).
  { apply H; vm_compute; try reflexivity; try discriminate; tauto. }
  discriminate Hlt.
Qed.

(** C1, amended. On a snapshot whose pending priorities are exact (whole
    numbers and halves up to 2^51 in magnitude), move-to-top writes the
    least priority among the pending features of the component's snapshot,
    minus 1: strictly below every pending feature of the snapshot, and
    strictly below every other pending row of the store when the priorities
    of the store's pending rows are all in the snapshot. *)
Theorem moveToTop_snapshot_minimum (id : jsstring) (w : World) :
  pendingPriorities (features (ui w)) <> [] ->
  Forall exactPriority (pendingPriorities (features (ui w))) ->
  exists m : Q,
    In (Fin m) (pendingPriorities (features (ui w)))
    /\ (forall q, In (Fin q) (pendingPriorities (features (ui w))) -> (m <= q)%Q)
    /\ requests (moveToTop id w) =
         requests w ++ [ReqUpdate (Patch.mk None (Some (Fin (m - 1))) None None None) id]
    /\ (forall f, In f (forge_features (store (moveToTop id w))) ->
          Feature.id f = id -> Feature.priority f = Fin (m - 1))
    /\ (forall g, In g (features (ui w)) -> isPending g = true ->
          num_lt (Fin (m - 1)) (Feature.priority g))
    /\ ((forall g, In g (forge_features (store w)) -> isPending g = true ->
           In (Feature.priority g) (pendingPriorities (features (ui w)))) ->
        strictly_first id (store (moveToTop id w))).
Proof.
  intros Hne Hexact. pose proof (exact_all_finite _ Hexact) as Hfin.
  destruct (Math_min_finite _ Hne Hfin) as (m & Hm & Hin & Hle).
  exists m. split; [exact Hin|]. split; [exact Hle|].
  assert (Hstore : store (moveToTop id w) =
            store (supabase_update
                     (Patch.mk None (Some (Fin (m - 1))) None None None) id w))
    by (unfold moveToTop; rewrite Hm; reflexivity).
  assert (Hrow : forall f, In f (forge_features (store (moveToTop id w))) ->
            Feature.id f = id -> Feature.priority f = Fin (m - 1)).
  { intros f Hf Hid. rewrite Hstore in Hf.
    destruct (updated_row _ _ _ _ Hf Hid) as (f0 & _ & _ & ->). reflexivity. }
  split; [unfold moveToTop; rewrite Hm; reflexivity|].
  split; [exact Hrow|]. split.
  - intros g Hg Hp. apply (below_least _ m _ Hfin Hle).
    now apply pending_priority_in.
  - intros Hagree f g Hf Hidf Hg Hpg Hidg.
    rewrite (Hrow f Hf Hidf). rewrite Hstore in Hg.
    apply (below_least _ m _ Hfin Hle), Hagree; [|exact Hpg].
    exact (untouched_row _ _ _ _ Hg Hidg).
Qed.

Lemma moveToTop_snapshot_minimum_witness :
  exists m : Q,
    In (Fin m) [Fin 5; Fin 7]
    /\ requests (moveToTop (lit "b")
         (polled [sampleFeature "a" 5 "pending"; sampleFeature "b" 7 "pending"]))
       = [ReqSelect (lit "forge_features"); ReqSelect (lit "forge_config");
          ReqUpdate (Patch.mk None (Some (Fin (m - 1))) None None None) (lit "b")].
Proof.
  destruct (moveToTop_snapshot_minimum (lit "b")
              (polled [sampleFeature "a" 5 "pending"; sampleFeature "b" 7 "pending"]))
    as (m & Hin & _ & Hreq & _).
  - discriminate.
  - repeat constructor.
  - exists m. split; [exact Hin | exact Hreq].
Defined.

(** ** Operator transitions *)

(** C2, as stated, fails: the handlers test no status.  On a row the worker
    has claimed since the last poll, skip, retry and mark-complete rewrite
    the status, through the sheet as well. *)
Lemma transitions_unchecked_counterexample :
  ~ rejected skipFeature
  /\ ~ rejected retryFeature
  /\ ~ rejected (markCompleted someDate)
  /\ List.map Feature.status (forge_features (store claimedWorld))
       = [lit "in_progress"]
  /\ List.map Feature.status
       (forge_features (store (press SkipBtn someDate claimedWorld)))
       = [lit "skipped"]
  /\ toast (ui (press SkipBtn someDate claimedWorld)) = None.
Proof.
  assert (Hno : forall op : jsstring -> World -> World,
            List.map Feature.status
              (forge_features (store (op (lit "a") claimedWorld)))
              <> [lit "in_progress"] ->
            ~ rejected op).
  { intros op Hop H. apply Hop.
    specialize (H claimedWorld (sampleFeature "a" 1 "in_progress")
                  ltac:(now left) eq_refl).
    change (forge_features (store (op (lit "a") claimedWorld))
            = forge_features (store claimedWorld)) in H.
    rewrite H. reflexivity. }
  repeat split; try (apply Hno; vm_compute; discriminate).
Qed.

Lemma operatorStatus_false (st : jsstring) :
  operatorStatus st = false ->
  jsstring_eqb st (lit "pending") = false
  /\ jsstring_eqb st (lit "failed") = false
  /\ jsstring_eqb st (lit "skipped") = false.
Proof.
  unfold operatorStatus. intros H.
  apply orb_false_elim in H as [H Hs]. apply orb_false_elim in H as [Hp Hf].
  auto.
Qed.

(** Without an operator status the sheet shows no transition button. *)
Lemma sheetButtons_no_transition (d : Dashboard) (sel : jsstring) (b : Button) :
  selectedFeature d = Some sel ->
  (forall st, selectedStatus d sel = Some st -> operatorStatus st = false) ->
  transitionButton b = true ->
  existsb (Button_eqb b) (sheetButtons d) = false.
Proof.
  intros Hsel Hst Hb. unfold sheetButtons. rewrite Hsel.
  destruct (truthy sel); [|reflexivity].
  assert (Hnone : status_is (selectedStatus d sel) "pending" = false
                  /\ status_is (selectedStatus d sel) "failed" = false
                  /\ status_is (selectedStatus d sel) "skipped" = false).
  { destruct (selectedStatus d sel) as [st|]; [|now repeat split].
    exact (operatorStatus_false st (Hst st eq_refl)). }
  destruct Hnone as (-> & -> & ->).
  destruct b; try discriminate Hb; reflexivity.
Qed.

(** C2, amended. The check is in what the component renders, on the status
    of its snapshot: a click on an in_progress or completed row selects
    nothing; for a selected feature whose snapshot status is none of
    pending, failed, skipped, a press on skip, retry, mark-complete or
    re-queue changes nothing and sends nothing; src/app/page.tsx renders no
    button on such a row. *)
Theorem transitions_gated_by_snapshot_status :
  (forall (f : Feature.t) (w : World),
     Feature.status f = lit "in_progress" \/ Feature.status f = lit "completed" ->
     clickFeature f w = w)
  /\ (forall (w : World) (sel : jsstring) (b : Button) (now : jsstring),
        selectedFeature (ui w) = Some sel ->
        (forall st, selectedStatus (ui w) sel = Some st -> operatorStatus st = false) ->
        transitionButton b = true ->
        press b now w = w)
  /\ (forall f : Feature.t,
        operatorStatus (Feature.status f) = false -> Page.rowButtons f = []).
Proof.
  split; [|split].
  - intros f w [H|H]; unfold clickFeature; rewrite H; reflexivity.
  - intros w sel b now Hsel Hst Hb. unfold press. rewrite Hsel.
    now rewrite (sheetButtons_no_transition _ sel b Hsel Hst Hb).
  - intros f H. destruct (operatorStatus_false _ H) as (Hp & Hf & Hs).
    unfold Page.rowButtons. now rewrite Hp, Hf, Hs.
Qed.

Lemma transitions_gated_by_snapshot_status_witness :
  clickFeature (sampleFeature "a" 1 "in_progress")
    (polled [sampleFeature "a" 1 "in_progress"])
  = polled [sampleFeature "a" 1 "in_progress"]
  /\ press SkipBtn someDate (loadData claimedWorld) = loadData claimedWorld
  /\ Page.rowButtons (sampleFeature "a" 1 "completed") = [].
Proof.
  destruct transitions_gated_by_snapshot_status as (Hclick & Hpress & Hpage).
  split; [|split].
  - apply Hclick. left. reflexivity.
  - apply (Hpress (loadData claimedWorld) (lit "a")).
    + reflexivity.
    + intros st Hst. vm_compute in Hst. injection Hst as <-. reflexivity.
    + reflexivity.
  - apply Hpage. reflexivity.
Defined.

(** ** Start now *)

Lemma newPriority_startNow (fs : list Feature.t) : newPriority true fs = Fin 0.
Proof. reflexivity. Qed.

(** As long as no priority is negative, 0 is at most every priority. *)
Lemma startNow_first_among_nonnegative (fs : list Feature.t) (f : Feature.t) :
  Forall (fun g => num_le (Fin 0) (Feature.priority g)) fs ->
  In f fs -> num_le (newPriority true fs) (Feature.priority f).
Proof.
  intros H Hin. rewrite newPriority_startNow.
  exact (proj1 (List.Forall_forall _ _) H f Hin).
Qed.

(** C6, on a queue where move-to-top has been used: the feature added with
    start-now gets priority 0 and is shown, after the poll, behind the
    feature that move-to-top had put at -1. *)
Theorem startNow_behind_promoted_feature :
  List.map (fun f => (Feature.id f, Feature.priority f, Feature.status f))
    (features (ui startNowScenario))
  = [(lit "b", Fin (-1), lit "pending");
     (lit "a", Fin 0, lit "pending");
     (lit "c", Fin 0, lit "pending")].
Proof. vm_compute. reflexivity. Qed.

(** ** Move up and append *)


Lemma moveUp_store (id : jsstring) (w : World) (feature : Feature.t) :
  List.find (fun f => jsstring_eqb (Feature.id f) id) (features (ui w)) = Some feature ->
  store (moveUp id w) =
  store (supabase_update
    (Patch.mk None (Some (num_sub (Feature.priority feature) (Fin MOVE_UP_STEP)))
       None None None) id w).
Proof. intros H. unfold moveUp. rewrite H. reflexivity. Qed.



(** * Further properties *)

(** ** [trim] *)

Lemma trimStart_no_leading_space (s : jsstring) : no_leading_space (trimStart s).
Proof.
  induction s as [|c s IH]; simpl; [exact I|].
  destruct (isWhiteSpace c) eqn:E; [exact IH | exact E].
Qed.

Lemma trimStart_fixed (s : jsstring) : no_leading_space s -> trimStart s = s.
Proof. destruct s as [|c s]; simpl; [reflexivity|]. now intros ->. Qed.

(** [trimStart] drops a prefix. *)
Lemma trimStart_suffix (s : jsstring) : exists t, s = t ++ trimStart s.
Proof.
  induction s as [|c s [t IH]]; simpl; [now exists []|].
  destruct (isWhiteSpace c).
  - exists (c :: t). simpl. now f_equal.
  - now exists [].
Qed.

(** [trimEnd] drops a suffix. *)
Lemma trimEnd_prefix (s : jsstring) : exists t, s = trimEnd s ++ t.
Proof.
  destruct (trimStart_suffix (rev s)) as [t H]. exists (rev t).
  unfold trimEnd. rewrite <- rev_app_distr, <- H. symmetry. apply rev_involutive.
Qed.

Lemma trimEnd_no_leading_space (s : jsstring) :
  no_leading_space s -> no_leading_space (trimEnd s).
Proof.
  intros H. destruct (trimEnd_prefix s) as [t E].
  destruct (trimEnd s) as [|c u]; [exact I|].
  rewrite E in H. exact H.
Qed.

Lemma trimEnd_fixed (s : jsstring) : no_leading_space (rev s) -> trimEnd s = s.
Proof.
  intros H. unfold trimEnd. rewrite trimStart_fixed by assumption.
  apply rev_involutive.
Qed.

Lemma trim_no_leading_space (s : jsstring) : no_leading_space (trim s).
Proof. apply trimEnd_no_leading_space, trimStart_no_leading_space. Qed.

Lemma trim_no_trailing_space (s : jsstring) : no_leading_space (rev (trim s)).
Proof.
  unfold trim, trimEnd. rewrite rev_involutive. apply trimStart_no_leading_space.
Qed.

Lemma trim_idempotent (s : jsstring) : trim (trim s) = trim s.
Proof.
  unfold trim at 1.
  rewrite (trimStart_fixed (trim s)) by apply trim_no_leading_space.
  apply trimEnd_fixed, trim_no_trailing_space.
Qed.

(** ** [parseSpec]: the fields and the instructions *)

Lemma marker_first_unit (p : N) (pat s : jsstring) :
  startsWith (p :: pat) s = true -> exists s', s = p :: s'.
Proof.
  destruct s as [|c s']; simpl; [discriminate|].
  intros H. apply andb_prop in H as [H _]. apply N.eqb_eq in H. subst. eauto.
Qed.

(** A line starts with at most one of the three markers. *)
Lemma markers_exclusive (l : jsstring) :
  (startsWith CATEGORY_ l = true ->
     startsWith NAME_ l = false)
  /\ (startsWith DESCRIPTION_ l = true ->
        startsWith NAME_ l = false /\ startsWith CATEGORY_ l = false).
Proof.
  split; intros H; apply marker_first_unit in H as [s' ->]; now repeat split.
Qed.

Lemma parseLine_category_marker (st : ParseState) (line : jsstring) :
  startsWith CATEGORY_ line = true ->
  ps_category (parseLine st line) = trim (drop 9 line).
Proof.
  intros H. unfold parseLine.
  rewrite (proj1 (markers_exclusive line) H), H. simpl.
  rewrite replace_prefix by assumption. reflexivity.
Qed.

Lemma parseLine_description_marker (st : ParseState) (line : jsstring) :
  startsWith DESCRIPTION_ line = true ->
  ps_description (parseLine st line) = trim (drop 12 line).
Proof.
  intros H. unfold parseLine.
  destruct (proj2 (markers_exclusive line) H) as [-> ->]. rewrite H. simpl.
  rewrite replace_prefix by assumption. reflexivity.
Qed.

Section LastMarker.

(** The last line that starts with a marker decides the field. *)
Context {A : Type} (field : ParseState -> A) (marker : jsstring) (value : jsstring -> A).
Hypothesis line_keeps : forall st line,
  startsWith marker line = false -> field (parseLine st line) = field st.
Hypothesis line_sets : forall st line,
  startsWith marker line = true -> field (parseLine st line) = value line.

Lemma loop_last_marker (pre post : list jsstring) (l : jsstring) (st : ParseState) :
  startsWith marker l = true ->
  Forall (fun l' => startsWith marker l' = false) post ->
  field (fold_left parseLine (pre ++ l :: post) st) = value l.
Proof.
  intros Hl Hpost. rewrite fold_left_app. simpl.
  rewrite (loop_keeps field marker line_keeps) by assumption.
  now apply line_sets.
Qed.

End LastMarker.

(** X1. When a marker occurs on several lines the last one wins, also when
    it comes after the separator: the field is the trimmed rest of the last
    line that starts with the marker. *)
Theorem parseSpec_last_marker_wins
    (spec : jsstring) (pre post : list jsstring) (l : jsstring) :
  specLines spec = pre ++ l :: post ->
  (startsWith NAME_ l = true ->
     Forall (fun l' => startsWith NAME_ l' = false) post ->
     Parsed.name (parseSpec spec) = trim (drop 5 l))
  /\ (startsWith CATEGORY_ l = true ->
        Forall (fun l' => startsWith CATEGORY_ l' = false) post ->
        Parsed.category (parseSpec spec) = trim (drop 9 l))
  /\ (startsWith DESCRIPTION_ l = true ->
        Forall (fun l' => startsWith DESCRIPTION_ l' = false) post ->
        Parsed.description (parseSpec spec) = trim (drop 12 l)).
Proof.
  intros Hlines. unfold parseSpec. simpl. rewrite Hlines.
  split; [|split]; intros Hl Hpost.
  - exact (loop_last_marker ps_name NAME_ _ parseLine_name
             parseLine_name_marker pre post l _ Hl Hpost).
  - exact (loop_last_marker ps_category CATEGORY_ _ parseLine_category
             parseLine_category_marker pre post l _ Hl Hpost).
  - exact (loop_last_marker ps_description DESCRIPTION_ _ parseLine_description
             parseLine_description_marker pre post l _ Hl Hpost).
Qed.

Lemma parseSpec_last_marker_wins_witness :
  Parsed.name (parseSpec
    (lit "NAME: A" ++ [LF] ++ lit "---" ++ [LF] ++ lit "NAME: B" ++ [LF] ++ lit "x"))
  = trim (drop 5 (lit "NAME: B")).
Proof.
  apply (parseSpec_last_marker_wins _ [lit "NAME: A"; lit "---"] [lit "x"]
           (lit "NAME: B")).
  - reflexivity.
  - reflexivity.
  - repeat constructor.
Defined.

Lemma parseLine_fields_trimmed (st : ParseState) (line : jsstring) :
  fields_trimmed st -> fields_trimmed (parseLine st line).
Proof.
  intros (Hn & Hc & Hd). unfold fields_trimmed.
  parse_cases; auto using trim_idempotent.
Qed.

Lemma loop_fields_trimmed (lines : list jsstring) (st : ParseState) :
  fields_trimmed st -> fields_trimmed (fold_left parseLine lines st).
Proof.
  revert st. induction lines as [|l lines IH]; intros st H; simpl; [exact H|].
  apply IH, parseLine_fields_trimmed, H.
Qed.

Lemma trimmed_no_space (s : jsstring) :
  trim s = s -> no_leading_space s /\ no_leading_space (rev s).
Proof.
  intros <-. split; [apply trim_no_leading_space | apply trim_no_trailing_space].
Qed.

(** X2. Whatever the text, none of the four parsed fields starts or ends
    with a white-space character. *)
Theorem parseSpec_fields_without_outer_space (spec : jsstring) :
  (no_leading_space (Parsed.name (parseSpec spec))
   /\ no_leading_space (rev (Parsed.name (parseSpec spec))))
  /\ (no_leading_space (Parsed.category (parseSpec spec))
      /\ no_leading_space (rev (Parsed.category (parseSpec spec))))
  /\ (no_leading_space (Parsed.description (parseSpec spec))
      /\ no_leading_space (rev (Parsed.description (parseSpec spec))))
  /\ (no_leading_space (Parsed.instructions (parseSpec spec))
      /\ no_leading_space (rev (Parsed.instructions (parseSpec spec)))).
Proof.
  destruct (loop_fields_trimmed (specLines spec) parseInit) as (Hn & Hc & Hd);
    [now repeat split|].
  unfold parseSpec. simpl.
  repeat split; try (now apply trimmed_no_space);
    [apply trim_no_leading_space | apply trim_no_trailing_space].
Qed.

(** How one line moves the two variables of the instructions. *)
Lemma parseLine_instructions (st : ParseState) (line : jsstring) :
  ps_inInstructions (parseLine st line)
    = ps_inInstructions st || actsAsSeparator line
  /\ ps_instructionLines (parseLine st line)
    = ps_instructionLines st
      ++ (if ps_inInstructions st && plainLine line then [line] else []).
Proof.
  destruct st as [n c d ls inside].
  unfold parseLine, actsAsSeparator, plainLine, isMarker.
  destruct (startsWith NAME_ line), (startsWith CATEGORY_ line),
    (startsWith DESCRIPTION_ line), (jsstring_eqb (trim line) (lit "---")),
    inside; simpl; rewrite ?app_nil_r; split; reflexivity.
Qed.

(** Before the separator nothing is collected. *)
Lemma loop_before_separator (lines : list jsstring) (st : ParseState) :
  Forall (fun l => actsAsSeparator l = false) lines ->
  ps_inInstructions st = false ->
  ps_inInstructions (fold_left parseLine lines st) = false
  /\ ps_instructionLines (fold_left parseLine lines st) = ps_instructionLines st.
Proof.
  intros H. revert st. induction H as [|l lines Hl _ IH]; intros st Hst; simpl.
  - auto.
  - destruct (parseLine_instructions st l) as [Hin Hlines].
    rewrite Hst, Hl in Hin. rewrite Hst in Hlines. simpl in Hlines.
    rewrite app_nil_r in Hlines.
    destruct (IH (parseLine st l) Hin) as [H1 H2]. rewrite H1, H2. auto.
Qed.

(** After the separator the plain lines are collected in order. *)
Lemma loop_after_separator (lines : list jsstring) (st : ParseState) :
  ps_inInstructions st = true ->
  ps_instructionLines (fold_left parseLine lines st)
    = ps_instructionLines st ++ List.filter plainLine lines.
Proof.
  revert st. induction lines as [|l lines IH]; intros st Hst; simpl.
  - now rewrite app_nil_r.
  - destruct (parseLine_instructions st l) as [Hin Hlines].
    rewrite Hst in Hin, Hlines. simpl in Hin, Hlines.
    rewrite (IH _ Hin), Hlines, <- app_assoc.
    now destruct (plainLine l).
Qed.

(** X3. Without a separator line the instructions are empty, whatever the
    other lines hold. *)
Theorem parseSpec_no_separator_no_instructions (spec : jsstring) :
  Forall (fun l => actsAsSeparator l = false) (specLines spec) ->
  Parsed.instructions (parseSpec spec) = [].
Proof.
  intros H. unfold parseSpec. simpl.
  destruct (loop_before_separator _ parseInit H eq_refl) as [_ ->]. reflexivity.
Qed.

Lemma parseSpec_no_separator_no_instructions_witness :
  Parsed.instructions (parseSpec
    (lit "NAME: Foo" ++ [LF] ++ lit "step 1" ++ [LF] ++ lit "-- -")) = [].
Proof.
  apply parseSpec_no_separator_no_instructions. vm_compute. repeat constructor.
Defined.

(** X4. The instructions are the lines after the first separator, in order
    and joined by line feeds, then trimmed; the lines among them that start
    with a marker and the further separator lines are left out. *)
Theorem parseSpec_instructions_after_separator
    (spec : jsstring) (hdr rest : list jsstring) (sep : jsstring) :
  specLines spec = hdr ++ sep :: rest ->
  Forall (fun l => actsAsSeparator l = false) hdr ->
  actsAsSeparator sep = true ->
  Parsed.instructions (parseSpec spec)
    = trim (join [LF] (List.filter plainLine rest)).
Proof.
  intros Hlines Hhdr Hsep. unfold parseSpec. simpl.
  rewrite Hlines, fold_left_app. simpl.
  destruct (loop_before_separator hdr parseInit Hhdr eq_refl) as [Hin Hnone].
  destruct (parseLine_instructions (fold_left parseLine hdr parseInit) sep)
    as [Hin' Hlines'].
  rewrite Hin, Hsep in Hin'. rewrite Hin, Hnone in Hlines'. simpl in Hin', Hlines'.
  rewrite (loop_after_separator rest _ Hin'), Hlines'. reflexivity.
Qed.

Lemma parseSpec_instructions_after_separator_witness :
  Parsed.instructions (parseSpec
    (lit "NAME: Foo" ++ [LF] ++ lit "---" ++ [LF] ++ lit "step 1" ++ [LF]
     ++ lit "---" ++ [LF] ++ lit "CATEGORY: x" ++ [LF] ++ lit "step 2"))
  = trim (join [LF] (List.filter plainLine
      [lit "step 1"; lit "---"; lit "CATEGORY: x"; lit "step 2"])).
Proof.
  apply (parseSpec_instructions_after_separator _ [lit "NAME: Foo"] _ (lit "---")).
  - reflexivity.
  - repeat constructor.
  - reflexivity.
Defined.

(** ** Add-feature: the answer of the store *)

(** X5. When the store refuses the insert, add-feature changes nothing but
    the toast: the table is as before, the text and the form stay for
    another try, no reload is asked for, and the engine is not un-paused
    even with start-now. *)
Theorem addFeature_store_error
    (startNow : bool) (msg : jsstring) (w : World) :
  truthy (Parsed.name (parseSpec (specInput (ui w)))) = true ->
  store (addFeature startNow (InsertError msg) w) = store w
  /\ requests (addFeature startNow (InsertError msg) w) =
       requests w ++
         [ReqInsert (newRow (parseSpec (specInput (ui w)))
                       (newPriority startNow (features (ui w))))]
  /\ pending_loads (addFeature startNow (InsertError msg) w) = pending_loads w
  /\ ui (addFeature startNow (InsertError msg) w) =
       ui (showToast (lit "Failed to add: " ++ msg) error w).
Proof. intros H. unfold addFeature. rewrite H. simpl. repeat split. Qed.

Lemma addFeature_store_error_witness :
  store (addFeature true (InsertError (lit "timeout"))
           (typeSpec (lit "NAME: Foo") world0)) = emptyStore
  /\ specInput (ui (addFeature true (InsertError (lit "timeout"))
           (typeSpec (lit "NAME: Foo") world0))) = lit "NAME: Foo"
  /\ enginePaused (ui (addFeature true (InsertError (lit "timeout"))
           (typeSpec (lit "NAME: Foo") world0))) = true.
Proof.
  destruct (addFeature_store_error true (lit "timeout")
              (typeSpec (lit "NAME: Foo") world0)) as (Hs & _ & _ & Hui);
    [reflexivity|].
  rewrite Hs, Hui. repeat split.
Defined.

Lemma addFeature_success_ui (startNow : bool) (new_id : jsstring) (w : World) :
  truthy (Parsed.name (parseSpec (specInput (ui w)))) = true ->
  specInput (ui (addFeature startNow (Inserted new_id) w)) = []
  /\ showAddForm (ui (addFeature startNow (Inserted new_id) w)) = false
  /\ pending_loads (addFeature startNow (Inserted new_id) w) = S (pending_loads w)
  /\ features (ui (addFeature startNow (Inserted new_id) w)) = features (ui w).
Proof.
  intros H. unfold addFeature. rewrite H. simpl.
  destruct (startNow && enginePaused (ui w)); repeat split.
Qed.

(** X6. An accepted add-to-queue appends one pending row to the table and
    leaves the rows before it as they are; on a snapshot of exact pending
    priorities (whole numbers and halves up to 2^51 in magnitude) its
    priority is strictly behind every pending feature of the snapshot; the
    form is emptied and closed and one reload is asked for. *)
Theorem addFeature_appends_behind_pending (new_id : jsstring) (w : World) :
  truthy (Parsed.name (parseSpec (specInput (ui w)))) = true ->
  Forall exactPriority (pendingPriorities (features (ui w))) ->
  exists f : Feature.t,
    forge_features (store (addFeature false (Inserted new_id) w))
      = forge_features (store w) ++ [f]
    /\ Feature.id f = new_id
    /\ Feature.status f = lit "pending"
    /\ (forall g, In g (features (ui w)) -> isPending g = true ->
          num_lt (Feature.priority g) (Feature.priority f))
    /\ specInput (ui (addFeature false (Inserted new_id) w)) = []
    /\ showAddForm (ui (addFeature false (Inserted new_id) w)) = false
    /\ pending_loads (addFeature false (Inserted new_id) w) = S (pending_loads w).
Proof.
  intros Hname Hexact. pose proof (exact_all_finite _ Hexact) as Hfin.
  destruct (addFeature_success_ui false new_id w Hname) as (Hspec & Hform & Hloads & _).
  eexists. split; [now apply addFeature_inserted_row|].
  split; [reflexivity|]. split; [reflexivity|].
  split; [|now repeat split].
  intros g Hg Hp. pose proof (pending_priority_in _ _ Hg Hp) as Hin.
  assert (Hne : pendingPriorities (features (ui w)) <> [])
    by (intros E; rewrite E in Hin; contradiction).
  destruct (Math_max_finite _ Hne Hfin) as (M & HM & _ & Hle).
  destruct (finite_inv _ (proj1 (List.Forall_forall _ _) Hfin _ Hin)) as [q Hq].
  rewrite Hq in Hin |- *. specialize (Hle q Hin).
  change (num_lt (Fin q) (newPriority false (features (ui w)))).
  unfold newPriority. fold (pendingPriorities (features (ui w))). rewrite HM.
  unfold pendingPriorities in Hne.
  destruct (List.filter isPending (features (ui w))); [contradiction|].
  apply num_ltb_Fin. lra.
Qed.

Lemma addFeature_appends_behind_pending_witness :
  exists f : Feature.t,
    forge_features (store (addFeature false (Inserted (lit "n"))
      (typeSpec (lit "NAME: New")
         (polled [sampleFeature "a" 5 "pending"; sampleFeature "b" 7 "failed"]))))
    = [sampleFeature "a" 5 "pending"; sampleFeature "b" 7 "failed"] ++ [f]
    /\ Feature.id f = lit "n".
Proof.
  destruct (addFeature_appends_behind_pending (lit "n")
    (typeSpec (lit "NAME: New")
       (polled [sampleFeature "a" 5 "pending"; sampleFeature "b" 7 "failed"])))
    as (f & Hstore & Hid & _).
  - reflexivity.
  - repeat constructor.
  - exists f. split; [exact Hstore | exact Hid].
Defined.

(** ** Polling *)

Lemma insert_by_priority_perm (f : Feature.t) (l : list Feature.t) :
  Permutation (insert_by_priority f l) (f :: l).
Proof.
  induction l as [|g l IH]; simpl; [reflexivity|].
  destruct (priority_leb (Feature.priority f) (Feature.priority g)); [reflexivity|].
  rewrite IH. apply perm_swap.
Qed.

Lemma order_by_priority_perm (l : list Feature.t) :
  Permutation (order_by_priority l) l.
Proof.
  induction l as [|f l IH]; simpl; [reflexivity|].
  rewrite insert_by_priority_perm. now constructor.
Qed.


Lemma loadData_store (w : World) : store (loadData w) = store w.
Proof.
  unfold loadData, load_flag.
  repeat match goal with
         | |- context [match ?o with Some _ => _ | None => _ end] => destruct o
         end; reflexivity.
Qed.

(** ** Delete *)

Lemma deleteFeature_store (id : jsstring) (w : World) :
  forge_features (store (deleteFeature id w)) =
  List.filter (fun f => negb (hasId id f)) (forge_features (store w)).
Proof. reflexivity. Qed.

Lemma deleteFeature_In (id : jsstring) (w : World) (f : Feature.t) :
  In f (forge_features (store (deleteFeature id w)))
  <-> In f (forge_features (store w)) /\ Feature.id f <> id.
Proof.
  rewrite deleteFeature_store, List.filter_In. unfold hasId.
  rewrite <- jsstring_eqb_neq.
  now destruct (jsstring_eqb (Feature.id f) id).
Qed.

(** ** The flags: what is written is what the next poll reads *)



(** ** The update handlers and the rows of the table *)

Lemma supabase_update_ids (patch : Patch.t) (id : jsstring) (w : World) :
  List.map Feature.id (forge_features (store (supabase_update patch id w)))
  = List.map Feature.id (forge_features (store w)).
Proof.
  rewrite supabase_update_store, List.map_map. apply List.map_ext.
  intros f. now destruct (jsstring_eqb (Feature.id f) id).
Qed.

(** X12. Skip, retry, mark-complete, move-to-top and move-up never add,
    drop or reorder rows, and never touch the configuration: the ids of the
    table are the same list before and after. *)
Theorem update_handlers_keep_rows (id now : jsstring) (w : World) (h : World -> World) :
  In h [skipFeature id; retryFeature id; markCompleted now id;
        moveToTop id; moveUp id;
        Page.skipFeature id; Page.retryFeature id; Page.markCompleted now id;
        Legacy.retryFeature id] ->
  List.map Feature.id (forge_features (store (h w)))
    = List.map Feature.id (forge_features (store w))
  /\ forge_config (store (h w)) = forge_config (store w).
Proof.
  intros Hh. simpl in Hh.
  repeat (destruct Hh as [<-|Hh]; [try (split; [apply supabase_update_ids | reflexivity])|]);
    [|contradiction].
  unfold moveUp. destruct (List.find _ _); [|now split].
  split; [apply supabase_update_ids | reflexivity].
Qed.

Lemma update_handlers_keep_rows_witness :
  List.map Feature.id (forge_features (store (moveUp (lit "b")
    (polled [sampleFeature "a" 1 "pending"; sampleFeature "b" 2 "pending"]))))
  = [lit "a"; lit "b"].
Proof.
  apply (update_handlers_keep_rows (lit "b") someDate
           (polled [sampleFeature "a" 1 "pending"; sampleFeature "b" 2 "pending"])
           (moveUp (lit "b"))).
  simpl. tauto.
Defined.

(** ** The counts, the progress label and the current feature *)

Lemma count_status_cons (s : string) (f : Feature.t) (fs : list Feature.t) :
  count_status s (f :: fs) = (counts_as s f + count_status s fs)%nat.
Proof.
  unfold count_status, counts_as. simpl.
  now destruct (jsstring_eqb (Feature.status f) (lit s)).
Qed.

(** A row is counted under its own status, and under no other. *)
Lemma counted_once (f : Feature.t) :
  (counts_as "completed" f + counts_as "pending" f + counts_as "failed" f
   + counts_as "in_progress" f + counts_as "skipped" f
   + (if otherStatus f then 1 else 0) = 1)%nat.
Proof.
  unfold counts_as, otherStatus.
  repeat match goal with
         | |- context [jsstring_eqb (Feature.status f) ?x] =>
             destruct (jsstring_eqb (Feature.status f) x) eqn:?
         end; simpl; try reflexivity; exfalso;
  repeat match goal with
         | H : jsstring_eqb _ _ = true |- _ => apply jsstring_eqb_eq in H
         end;
  match goal with
  | H1 : Feature.status f = _, H2 : Feature.status f = _ |- _ =>
      rewrite H1 in H2; vm_compute in H2; discriminate H2
  end.
Qed.

(** X13. The five counts of the header and the number of features whose
    status is none of the five add up to the total exactly: every feature
    is counted once, under its own status, and a feature with another
    status is counted nowhere. *)
Theorem counts_partition (fs : list Feature.t) :
  (completed fs + pending fs + failed fs + inProgress fs + skipped fs
   + length (List.filter otherStatus fs) = total fs)%nat.
Proof.
  unfold completed, pending, failed, inProgress, skipped, total.
  induction fs as [|f fs IH]; [reflexivity|].
  rewrite !count_status_cons. pose proof (counted_once f) as Hf. simpl.
  destruct (otherStatus f); simpl length; lia.
Qed.

Lemma completed_le_total (fs : list Feature.t) : (completed fs <= total fs)%nat.
Proof. apply List.filter_length_le. Qed.

(** X14. The percentage of the label is always a whole number between 0
    and 100, also on the empty backlog. *)
Theorem progressLabel_bounds (fs : list Feature.t) :
  exists z : Z, progressLabel fs = Fin (inject_Z z) /\ (0 <= z <= 100)%Z.
Proof.
  destruct (Nat.eq_dec (total fs) 0%nat) as [E|E].
  - destruct fs; [|discriminate E]. exists 0%Z. split; [reflexivity | lia].
  - unfold progressLabel. rewrite progressWidth_nonempty by lia.
    pose proof (completed_le_total fs) as Hle.
    set (c := inject_Z (Z.of_nat (completed fs))).
    set (t := inject_Z (Z.of_nat (total fs))).
    assert (Ht : (0 < t)%Q).
    { unfold t. rewrite <- (Zlt_Qlt 0). lia. }
    assert (Hc : (0 <= c)%Q).
    { unfold c. rewrite <- (Zle_Qle 0). lia. }
    assert (Hct : (c <= t)%Q).
    { unfold c, t. rewrite <- Zle_Qle. lia. }
    assert (H0 : (0 <= c / t)%Q) by (apply Qle_shift_div_l; [exact Ht | lra]).
    assert (H1 : (c / t <= 1)%Q) by (apply Qle_shift_div_r; [exact Ht | lra]).
    set (r := (c / t)%Q) in *.
    assert (Hlo : (0 <= Qfloor (r * 100 + (1 # 2)))%Z).
    { apply Z.le_trans with (Qfloor (1 # 2)); [discriminate|].
      apply Qfloor_resp_le. lra. }
    assert (Hhi : (Qfloor (r * 100 + (1 # 2)) <= 100)%Z).
    { apply Z.le_trans with (Qfloor (201 # 2)); [|discriminate].
      apply Qfloor_resp_le. lra. }
    unfold Math_round, or_zero.
    destruct (sgn (inject_Z (Qfloor (r * 100 + (1 # 2))))).
    + exists 0%Z. split; [reflexivity | lia].
    + eexists. split; [reflexivity | lia].
    + eexists. split; [reflexivity | lia].
Qed.

Lemma find_first_in_progress (fs : list Feature.t) (f : Feature.t) :
  currentFeature fs = Some f ->
  exists before after,
    fs = before ++ f :: after /\ inProgress before = 0%nat.
Proof.
  unfold currentFeature, inProgress.
  induction fs as [|g fs IH]; simpl; [discriminate|].
  destruct (jsstring_eqb (Feature.status g) (lit "in_progress")) eqn:E.
  - intros [= ->]. now exists [], fs.
  - intros H. destruct (IH H) as (before & after & -> & Hnone).
    exists (g :: before), after. split; [reflexivity|].
    rewrite count_status_cons. unfold counts_as. now rewrite E.
Qed.

(** X15. The banner of the feature being built is shown exactly when the
    component counts a feature in progress; the feature shown is in
    progress and is the first such row of the snapshot. *)
Theorem currentFeature_when_building (d : Dashboard) :
  (isBuilding d = true <-> exists f, currentFeature (features d) = Some f)
  /\ (forall f, currentFeature (features d) = Some f ->
        Feature.status f = lit "in_progress"
        /\ exists before after,
             features d = before ++ f :: after /\ inProgress before = 0%nat).
Proof.
  split.
  - unfold isBuilding, inProgress, count_status, currentFeature.
    induction (features d) as [|g fs IH]; simpl.
    + split; [discriminate | intros [f H]; discriminate].
    + destruct (jsstring_eqb (Feature.status g) (lit "in_progress")); simpl.
      * split; [eauto | reflexivity].
      * exact IH.
  - intros f H. split; [|now apply find_first_in_progress].
    apply List.find_some in H as [_ H]. now apply jsstring_eqb_eq.
Qed.

Lemma currentFeature_when_building_witness :
  exists f, currentFeature (features (ui (polled
    [sampleFeature "a" 1 "completed"; sampleFeature "b" 2 "in_progress"]))) = Some f.
Proof.
  apply (currentFeature_when_building (ui (polled
    [sampleFeature "a" 1 "completed"; sampleFeature "b" 2 "in_progress"]))).
  reflexivity.
Defined.

(** ** The action sheet *)

Lemma sheetButtons_offered (d : Dashboard) (sel : jsstring) (b : Button) :
  selectedFeature d = Some sel ->
  existsb (Button_eqb b) (sheetButtons d)
    = truthy sel && offeredOn (selectedStatus d sel) b.
Proof.
  intros H. unfold sheetButtons, offeredOn. rewrite H.
  destruct (truthy sel); [|reflexivity].
  destruct (status_is (selectedStatus d sel) "pending"),
    (status_is (selectedStatus d sel) "failed"),
    (status_is (selectedStatus d sel) "skipped"), b; reflexivity.
Qed.

Lemma sheet_open (d : Dashboard) (b : Button) :
  existsb (Button_eqb b) (sheetButtons d) = true ->
  exists sel, selectedFeature d = Some sel
              /\ offeredOn (selectedStatus d sel) b = true.
Proof.
  intros H. destruct (selectedFeature d) as [sel|] eqn:E.
  - exists sel. split; [reflexivity|].
    rewrite (sheetButtons_offered d sel b E) in H.
    now apply andb_prop in H as [_ H].
  - unfold sheetButtons in H. rewrite E in H. discriminate.
Qed.

(** The sheet shows the buttons of a pending feature only for a pending
    feature of the snapshot. *)
Lemma pending_on_sheet (d : Dashboard) (sel : jsstring) :
  status_is (selectedStatus d sel) "pending" = true ->
  exists f, List.find (fun f => jsstring_eqb (Feature.id f) sel) (features d) = Some f
            /\ In f (features d) /\ isPending f = true.
Proof.
  unfold selectedStatus.
  destruct (List.find _ (features d)) as [f|] eqn:E; simpl; [|discriminate].
  intros H. exists f. split; [reflexivity|].
  apply List.find_some in E as [Hin _]. now split.
Qed.

(** X16. A press on any button that the sheet shows closes the sheet. *)
Theorem press_closes_sheet (b : Button) (now : jsstring) (w : World) :
  existsb (Button_eqb b) (sheetButtons (ui w)) = true ->
  selectedFeature (ui (press b now w)) = None.
Proof.
  intros H. destruct (sheet_open _ _ H) as (sel & Hsel & Hoff).
  unfold press. rewrite Hsel, H.
  destruct b; try reflexivity.
  destruct (pending_on_sheet _ _ Hoff) as (f & Hfind & _).
  unfold buttonHandler, moveUp. now rewrite Hfind.
Qed.

Lemma press_closes_sheet_witness :
  selectedFeature (ui (press MoveUpBtn someDate
    (clickFeature (sampleFeature "a" 1 "pending")
       (polled [sampleFeature "a" 1 "pending"])))) = None.
Proof. apply press_closes_sheet. reflexivity. Defined.

(** X17. The sheet offers move-to-top only when the snapshot holds a
    pending feature, so the minimum is never taken over an empty list: with
    exact pending priorities in the snapshot (whole numbers and halves up
    to 2^51 in magnitude), the press sends one update whose priority is a
    pending priority of the snapshot minus 1. *)
Theorem sheet_moveToTop_finite (now : jsstring) (w : World) :
  existsb (Button_eqb MoveToTopBtn) (sheetButtons (ui w)) = true ->
  Forall exactPriority (pendingPriorities (features (ui w))) ->
  exists (sel : jsstring) (m : Q),
    selectedFeature (ui w) = Some sel
    /\ In (Fin m) (pendingPriorities (features (ui w)))
    /\ requests (press MoveToTopBtn now w) =
         requests w ++
           [ReqUpdate (Patch.mk None (Some (Fin (m - 1))) None None None) sel].
Proof.
  intros H Hexact. pose proof (exact_all_finite _ Hexact) as Hfin.
  destruct (sheet_open _ _ H) as (sel & Hsel & Hoff).
  destruct (pending_on_sheet _ _ Hoff) as (f & _ & Hin & Hp).
  assert (Hne : pendingPriorities (features (ui w)) <> []).
  { intros E. pose proof (pending_priority_in _ _ Hin Hp) as Hf.
    rewrite E in Hf. contradiction. }
  destruct (Math_min_finite _ Hne Hfin) as (m & Hm & Hmin & _).
  exists sel, m. split; [exact Hsel|]. split; [exact Hmin|].
  unfold press. rewrite Hsel, H. unfold buttonHandler, moveToTop.
  rewrite Hm. reflexivity.
Qed.

Lemma sheet_moveToTop_finite_witness :
  exists (sel : jsstring) (m : Q),
    selectedFeature (ui (clickFeature (sampleFeature "b" 7 "pending")
      (polled [sampleFeature "a" 5 "pending"; sampleFeature "b" 7 "pending"])))
      = Some sel
    /\ In (Fin m) [Fin 5; Fin 7].
Proof.
  destruct (sheet_moveToTop_finite someDate
    (clickFeature (sampleFeature "b" 7 "pending")
      (polled [sampleFeature "a" 5 "pending"; sampleFeature "b" 7 "pending"])))
    as (sel & m & Hsel & Hin & _).
  - reflexivity.
  - repeat constructor.
  - exists sel, m. split; [exact Hsel | exact Hin].
Defined.

(** A row of the table after an update: a row that was there, patched when
    it carries the id. *)
Lemma update_row_cases (patch : Patch.t) (id : jsstring) (w : World) (f' : Feature.t) :
  In f' (forge_features (store (supabase_update patch id w))) ->
  exists f, In f (forge_features (store w))
            /\ ((Feature.id f <> id /\ f' = f)
                \/ (Feature.id f = id /\ f' = Patch.apply patch f)).
Proof.
  rewrite supabase_update_store. intros H.
  apply in_map_iff in H as (f & Hf & Hin). exists f. split; [exact Hin|].
  destruct (jsstring_eqb (Feature.id f) id) eqn:E.
  - right. apply jsstring_eqb_eq in E. auto.
  - left. apply jsstring_eqb_neq in E. auto.
Qed.

(** X18. Through the sheet a status only moves along the arrows
    pending -> skipped, pending -> completed, failed -> pending,
    failed -> skipped and skipped -> pending, where the source is the status
    of the selected feature in the snapshot: after a press, a row of the
    table either has the id and the status of a row that was there, or it
    carries the selected id and the target of one of these arrows. *)
Theorem sheet_transitions
    (b : Button) (now sel : jsstring) (w : World) (f' : Feature.t) :
  selectedFeature (ui w) = Some sel ->
  In f' (forge_features (store (press b now w))) ->
  (exists f, In f (forge_features (store w))
             /\ Feature.id f = Feature.id f'
             /\ Feature.status f = Feature.status f')
  \/ (Feature.id f' = sel
      /\ ((status_is (selectedStatus (ui w) sel) "pending" = true
           /\ (Feature.status f' = lit "skipped"
               \/ Feature.status f' = lit "completed"))
          \/ (status_is (selectedStatus (ui w) sel) "failed" = true
              /\ (Feature.status f' = lit "pending"
                  \/ Feature.status f' = lit "skipped"))
          \/ (status_is (selectedStatus (ui w) sel) "skipped" = true
              /\ Feature.status f' = lit "pending"))).
Proof.
  intros Hsel. unfold press. rewrite Hsel.
  destruct (existsb (Button_eqb b) (sheetButtons (ui w))) eqn:E;
    [|intros H; left; eauto].
  rewrite (sheetButtons_offered _ sel b Hsel) in E.
  apply andb_prop in E as [_ E].
  assert (Hkept : forall patch,
            Patch.status patch = None ->
            In f' (forge_features (store (supabase_update patch sel w))) ->
            exists f, In f (forge_features (store w))
                      /\ Feature.id f = Feature.id f'
                      /\ Feature.status f = Feature.status f').
  { intros patch Hp H. destruct (update_row_cases _ _ _ _ H)
      as (f & Hin & [[_ ->]|[_ ->]]); exists f; repeat split; try exact Hin.
    unfold Patch.apply. simpl. now rewrite Hp. }
  assert (Hset : forall patch st,
            Patch.status patch = Some st ->
            In f' (forge_features (store (supabase_update patch sel w))) ->
            (exists f, In f (forge_features (store w))
                       /\ Feature.id f = Feature.id f'
                       /\ Feature.status f = Feature.status f')
            \/ (Feature.id f' = sel /\ Feature.status f' = st)).
  { intros patch st Hp H. destruct (update_row_cases _ _ _ _ H)
      as (f & Hin & [[_ ->]|[Hid ->]]); [left; eauto|].
    right. unfold Patch.apply. simpl. now rewrite Hp. }
  destruct b; simpl in E; unfold buttonHandler.
  - intros H. left. exact (Hkept (Patch.mk None _ _ _ _) eq_refl H).
  - unfold moveUp. destruct (List.find _ _); intros H; left;
      [exact (Hkept (Patch.mk None _ _ _ _) eq_refl H) | eauto].
  - intros H. destruct (Hset (Patch.mk (Some _) _ _ _ _) _ eq_refl H) as [?|[? ?]]; [now left|].
    right. split; [assumption|]. left. auto.
  - intros H. destruct (Hset (Patch.mk (Some _) _ _ _ _) _ eq_refl H) as [?|[? ?]]; [now left|].
    right. split; [assumption|].
    apply orb_prop in E as [E|E]; [left | right; left]; auto.
  - intros H. destruct (Hset (Patch.mk (Some _) _ _ _ _) _ eq_refl H) as [?|[? ?]]; [now left|].
    right. split; [assumption|]. right. left. auto.
  - intros H. destruct (Hset (Patch.mk (Some _) _ _ _ _) _ eq_refl H) as [?|[? ?]]; [now left|].
    right. split; [assumption|]. right. right. auto.
  - intros H. left.
    apply deleteFeature_In in H as [Hin _]. eauto.
  - intros H. left. eauto.
Qed.

Lemma sheet_transitions_witness :
  (exists f, In f [sampleFeature "a" 1 "failed"]
             /\ Feature.id f = lit "a" /\ Feature.status f = lit "pending")
  \/ (lit "a" = lit "a"
      /\ ((status_is (Some (lit "failed")) "pending" = true
           /\ (lit "pending" = lit "skipped" \/ lit "pending" = lit "completed"))
          \/ (status_is (Some (lit "failed")) "failed" = true
              /\ (lit "pending" = lit "pending" \/ lit "pending" = lit "skipped"))
          \/ (status_is (Some (lit "failed")) "skipped" = true
              /\ lit "pending" = lit "pending"))).
Proof.
  apply (sheet_transitions RetryBtn someDate (lit "a")
           (clickFeature (sampleFeature "a" 1 "failed")
              (polled [sampleFeature "a" 1 "failed"]))
           (sampleFeature "a" 1 "pending")).
  - reflexivity.
  - left. reflexivity.
Defined.

(** ** What no sequence of actions does *)

Lemma evolves_refl (f : Feature.t) : evolves f f.
Proof. unfold evolves. tauto. Qed.

Lemma evolves_trans (f g h : Feature.t) : evolves f g -> evolves g h -> evolves f h.
Proof.
  unfold evolves.
  intros (? & ? & ? & ? & ? & ? & Hs) (? & ? & ? & ? & ? & ? & Hs').
  repeat split; try congruence.
  destruct Hs' as [E|?]; [|now right]. rewrite E.
  destruct Hs as [?|?]; [left; congruence | now right].
Qed.

Lemma evolves_created (f g : Feature.t) : created f -> evolves f g -> created g.
Proof.
  unfold created, evolves.
  intros (? & ? & ? & ?) (? & ? & ? & ? & ? & ? & Hs).
  repeat split; try congruence.
  destruct Hs as [E|?]; [now rewrite E | assumption].
Qed.

Lemma evolves_patch (p : Patch.t) (f : Feature.t) :
  operatorPatch p -> evolves f (Patch.apply p f).
Proof.
  unfold operatorPatch, evolves, Patch.apply. simpl.
  destruct (Patch.status p); simpl; intros H; repeat split; auto.
Qed.

Lemma Forall2_evolves_refl (l : list Feature.t) : Forall2 evolves l l.
Proof. induction l; constructor; [apply evolves_refl | assumption]. Qed.

Lemma Forall2_evolves_map (g : Feature.t -> Feature.t) (l : list Feature.t) :
  (forall x, evolves x (g x)) -> Forall2 evolves l (List.map g l).
Proof. intros H. induction l; simpl; constructor; auto. Qed.

Lemma Forall2_evolves_trans (l k m : list Feature.t) :
  Forall2 evolves l k -> Forall2 evolves k m -> Forall2 evolves l m.
Proof.
  intros H. revert m. induction H as [|x y l k Hxy _ IH]; intros m Hm.
  - inversion Hm. constructor.
  - inversion Hm as [|? z ? m' Hyz Hkm]; subst.
    constructor; [exact (evolves_trans _ _ _ Hxy Hyz) | now apply IH].
Qed.

(** What is left of the later list is left of the earlier one. *)
Lemma Forall2_evolves_sublist (l k k' : list Feature.t) :
  Forall2 evolves l k -> k' `sublist_of` k ->
  exists l', l' `sublist_of` l /\ Forall2 evolves l' k'.
Proof.
  intros H Hsub. revert l H.
  induction Hsub as [|y k' k _ IH|y k' k _ IH]; intros l H.
  - inversion H. exists []. split; constructor.
  - inversion H as [|x ? l0 ? Hxy Hlk]; subst.
    destruct (IH l0 Hlk) as (l' & Hl' & Hf). exists (x :: l').
    split; [now constructor | now constructor].
  - inversion H as [|x ? l0 ? Hxy Hlk]; subst.
    destruct (IH l0 Hlk) as (l' & Hl' & Hf). exists l'.
    split; [now constructor | assumption].
Qed.

Lemma Forall2_evolves_ids (t kt : list Feature.t) :
  Forall2 evolves t kt -> List.map Feature.id kt = List.map Feature.id t.
Proof.
  induction 1 as [|x y t kt Hxy _ IH]; simpl; [reflexivity|].
  destruct Hxy as (-> & _). now rewrite IH.
Qed.

Lemma Forall2_evolves_created (t kt : list Feature.t) :
  Forall created t -> Forall2 evolves t kt -> Forall created kt.
Proof.
  intros Hc H. induction H as [|x y t kt Hxy _ IH]; [constructor|].
  inversion Hc; subst. constructor; [now apply (evolves_created x) | now apply IH].
Qed.

Lemma sublist_created (a' a : list Feature.t) :
  a' `sublist_of` a -> Forall created a -> Forall created a'.
Proof.
  induction 1 as [|y a' a _ IH|y a' a _ IH]; intros Hc;
    [constructor| |]; inversion Hc; subst; auto.
Qed.

Lemma sublist_map_id (t a : list Feature.t) :
  t `sublist_of` a -> List.map Feature.id t `sublist_of` List.map Feature.id a.
Proof. induction 1; simpl; now constructor. Qed.

Lemma filter_sublist (p : Feature.t -> bool) (l : list Feature.t) :
  List.filter p l `sublist_of` l.
Proof.
  induction l as [|x l IH]; simpl; [constructor|].
  destruct (p x); now constructor.
Qed.

Lemma sublist_In (l k : list Feature.t) (x : Feature.t) :
  l `sublist_of` k -> In x l -> In x k.
Proof.
  induction 1 as [|y l k _ IH|y l k _ IH]; simpl; [tauto| |].
  - intros [?|?]; auto.
  - auto.
Qed.

Lemma provenance_kept (ids : list jsstring) (rows sub kept : list Feature.t) :
  sub `sublist_of` rows -> Forall2 evolves sub kept -> provenance ids rows kept.
Proof.
  intros Hs Hf. exists sub, kept, []. rewrite app_nil_r.
  repeat split; try assumption; [constructor | apply sublist_nil_l].
Qed.

Lemma provenance_refl (ids : list jsstring) (rows : list Feature.t) :
  provenance ids rows rows.
Proof. apply (provenance_kept ids rows rows); [reflexivity | apply Forall2_evolves_refl]. Qed.

Lemma provenance_trans (i1 i2 : list jsstring) (r1 r2 r3 : list Feature.t) :
  provenance i1 r1 r2 -> provenance i2 r2 r3 -> provenance (i1 ++ i2) r1 r3.
Proof.
  intros (sub1 & k1 & a1 & -> & Hs1 & Hf1 & Hc1 & Hi1)
         (sub2 & k2 & a2 & -> & Hs2 & Hf2 & Hc2 & Hi2).
  apply sublist_app_r in Hs2 as (s & t & -> & Hs & Ht).
  apply Forall2_app_inv_l in Hf2 as (ks & kt & Hfs & Hft & ->).
  destruct (Forall2_evolves_sublist sub1 k1 s Hf1 Hs) as (sub1' & Hsub1' & Hf1').
  exists sub1', ks, (kt ++ a2). split; [now rewrite app_assoc|].
  split; [now transitivity sub1|].
  split; [exact (Forall2_evolves_trans _ _ _ Hf1' Hfs)|].
  split.
  - apply Forall_app. split; [|exact Hc2].
    apply (Forall2_evolves_created t); [|exact Hft].
    exact (sublist_created _ _ Ht Hc1).
  - rewrite List.map_app. apply sublist_app; [|exact Hi2].
    rewrite (Forall2_evolves_ids _ _ Hft).
    transitivity (List.map Feature.id a1); [now apply sublist_map_id | exact Hi1].
Qed.

Lemma provenance_update (ids : list jsstring) (p : Patch.t) (id : jsstring) (w : World) :
  operatorPatch p ->
  provenance ids (forge_features (store w))
    (forge_features (store (supabase_update p id w))).
Proof.
  intros Hp. rewrite supabase_update_store.
  apply (provenance_kept ids _ (forge_features (store w))); [reflexivity|].
  apply Forall2_evolves_map. intros x.
  destruct (jsstring_eqb (Feature.id x) id); [now apply evolves_patch | apply evolves_refl].
Qed.

Lemma provenance_addFeature (startNow : bool) (resp : InsertResponse) (w : World) :
  provenance (match resp with Inserted i => [i] | InsertError _ => [] end)
    (forge_features (store w))
    (forge_features (store (addFeature startNow resp w))).
Proof.
  destruct (truthy (Parsed.name (parseSpec (specInput (ui w))))) eqn:Hname.
  - destruct resp as [new_id|msg].
    + rewrite addFeature_inserted_row by assumption.
      exists (forge_features (store w)), (forge_features (store w)),
        [NewRow.to_feature new_id
           (newRow (parseSpec (specInput (ui w)))
              (newPriority startNow (features (ui w))))].
      split; [reflexivity|]. split; [reflexivity|].
      split; [apply Forall2_evolves_refl|]. split; [|reflexivity].
      constructor; [|constructor]. unfold created. simpl.
      repeat split; try discriminate.
      intros E. change (Parsed.name (parseSpec (specInput (ui w))) = []) in E.
      rewrite E in Hname. discriminate.
    + unfold addFeature. rewrite Hname. apply provenance_refl.
  - unfold addFeature. rewrite Hname. apply provenance_refl.
Qed.

Lemma provenance_press (b : Button) (now : jsstring) (w : World) :
  provenance [] (forge_features (store w)) (forge_features (store (press b now w))).
Proof.
  unfold press. destruct (selectedFeature (ui w)) as [sel|]; [|apply provenance_refl].
  destruct (existsb _ _); [|apply provenance_refl].
  destruct b; unfold buttonHandler;
    try (apply (provenance_update [] (Patch.mk _ _ _ _ _)); simpl; auto; reflexivity).
  - unfold moveUp. destruct (List.find _ _); [|apply provenance_refl].
    apply (provenance_update [] (Patch.mk _ _ _ _ _)). exact I.
  - rewrite deleteFeature_store.
    apply (provenance_kept [] _ (List.filter (fun f => negb (hasId sel f))
                                   (forge_features (store w))));
      [apply filter_sublist | apply Forall2_evolves_refl].
  - apply provenance_refl.
Qed.

Lemma provenance_perform (a : Action) (w : World) :
  provenance (idsOf a) (forge_features (store w))
    (forge_features (store (perform a w))).
Proof.
  destruct a; cbn [perform]; try apply provenance_refl.
  - rewrite loadData_store. apply provenance_refl.
  - destruct (showAddForm (ui w)); apply provenance_refl.
  - destruct (showAddForm (ui w)); [apply provenance_addFeature | apply provenance_refl].
  - destruct (showAddForm (ui w)); [apply provenance_addFeature | apply provenance_refl].
  - destruct (features (ui w) !! i) as [f|]; [|apply provenance_refl].
    unfold clickFeature. destruct (_ && _); apply provenance_refl.
  - apply provenance_press.
Qed.

Lemma evolves_insertedFrom (r : NewRow.t) (f g : Feature.t) :
  insertedFrom r f -> evolves f g -> insertedFrom r g.
Proof.
  unfold insertedFrom, evolves.
  intros (? & ? & ? & ?) (_ & ? & ? & ? & ? & _). repeat split; congruence.
Qed.

Lemma justified_same_store (w w' : World) (sent : list Request) :
  requests w' = requests w ++ sent ->
  forge_features (store w') = forge_features (store w) ->
  justified w w'.
Proof.
  intros Hr Hs. exists sent. rewrite Hs. split; [exact Hr|].
  split; intros f Hf; left; exists f; (split; [exact Hf | apply evolves_refl]).
Qed.

Lemma justified_trans (w1 w2 w3 : World) :
  justified w1 w2 -> justified w2 w3 -> justified w1 w3.
Proof.
  intros (s1 & Hr1 & Ha1 & Hb1) (s2 & Hr2 & Ha2 & Hb2).
  exists (s1 ++ s2). split; [now rewrite Hr2, Hr1, app_assoc|]. split.
  - intros f Hf. destruct (Ha1 f Hf) as [(f2 & Hf2 & Hev)|Hd].
    + destruct (Ha2 f2 Hf2) as [(f3 & Hf3 & Hev')|Hd].
      * left. exists f3. split; [exact Hf3 | exact (evolves_trans _ _ _ Hev Hev')].
      * right. apply in_or_app. right. destruct Hev as (<- & _). exact Hd.
    + right. apply in_or_app. now left.
  - intros f3 Hf3. destruct (Hb2 f3 Hf3) as [(f2 & Hf2 & Hev')|(Hc & r & Hr & Hi)].
    + destruct (Hb1 f2 Hf2) as [(f & Hf & Hev)|(Hc & r & Hr & Hi)].
      * left. exists f. split; [exact Hf | exact (evolves_trans _ _ _ Hev Hev')].
      * right. split; [exact (evolves_created _ _ Hc Hev')|].
        exists r. split; [apply in_or_app; now left|].
        exact (evolves_insertedFrom _ _ _ Hi Hev').
    + right. split; [exact Hc|]. exists r. split; [apply in_or_app; now right | exact Hi].
Qed.

Lemma justified_update (p : Patch.t) (id : jsstring) (w w' : World) :
  operatorPatch p ->
  requests w' = requests w ++ [ReqUpdate p id] ->
  store w' = store (supabase_update p id w) ->
  justified w w'.
Proof.
  intros Hp Hr Hs. exists [ReqUpdate p id]. rewrite Hs. split; [exact Hr|]. split.
  - intros f Hf. left. eexists. split; [exact (update_patches p id w f Hf)|].
    destruct (jsstring_eqb (Feature.id f) id);
      [now apply evolves_patch | apply evolves_refl].
  - intros f' Hf'. left.
    destruct (update_row_cases _ _ _ _ Hf') as (f & Hin & [[_ ->]|[_ ->]]);
      exists f; (split; [exact Hin|]);
      [apply evolves_refl | now apply evolves_patch].
Qed.

Lemma justified_addFeature (startNow : bool) (resp : InsertResponse) (w : World) :
  justified w (addFeature startNow resp w).
Proof.
  destruct (truthy (Parsed.name (parseSpec (specInput (ui w))))) eqn:Hname;
    [|apply (justified_same_store _ _ []);
        unfold addFeature; rewrite Hname; simpl; [now rewrite app_nil_r | reflexivity]].
  destruct resp as [new_id|msg];
    [|apply (justified_same_store _ _
               [ReqInsert (newRow (parseSpec (specInput (ui w)))
                             (newPriority startNow (features (ui w))))]);
        unfold addFeature; rewrite Hname; reflexivity].
  set (row := newRow (parseSpec (specInput (ui w)))
                (newPriority startNow (features (ui w)))).
  assert (Hreq : exists tail, requests (addFeature startNow (Inserted new_id) w)
                   = requests w ++ ReqInsert row :: tail).
  { unfold addFeature. rewrite Hname.
    destruct (startNow && enginePaused (ui w)); simpl; eexists;
      rewrite <- ?app_assoc; reflexivity. }
  destruct Hreq as [tail Hreq]. exists (ReqInsert row :: tail).
  rewrite addFeature_inserted_row by assumption. fold row.
  split; [exact Hreq|]. split.
  - intros f Hf. left. exists f. split; [apply in_or_app; now left | apply evolves_refl].
  - intros f' Hf'. apply in_app_or in Hf' as [Hf'|[<-|[]]].
    + left. exists f'. split; [exact Hf' | apply evolves_refl].
    + right. split.
      * unfold created. simpl. repeat split; try discriminate.
        intros E. change (Parsed.name (parseSpec (specInput (ui w))) = []) in E.
        rewrite E in Hname. discriminate.
      * exists row. split; [now left | now repeat split].
Qed.

Lemma justified_press (b : Button) (now : jsstring) (w : World) :
  justified w (press b now w).
Proof.
  assert (Hsame : justified w w)
    by (apply (justified_same_store _ _ []); [now rewrite app_nil_r | reflexivity]).
  unfold press. destruct (selectedFeature (ui w)) as [sel|]; [|exact Hsame].
  destruct (existsb _ _); [|exact Hsame].
  destruct b; unfold buttonHandler;
    try (eapply (justified_update _ sel);
         [|reflexivity|reflexivity]; simpl; auto; reflexivity).
  - unfold moveUp. destruct (List.find _ _); [|exact Hsame].
    eapply (justified_update _ sel); [|reflexivity|reflexivity]; exact I.
  - exists [ReqDelete sel]. split; [reflexivity|]. split.
    + intros f Hf. destruct (jsstring_eqb (Feature.id f) sel) eqn:E.
      * right. apply jsstring_eqb_eq in E. rewrite E. now left.
      * left. exists f. split; [|apply evolves_refl].
        apply deleteFeature_In. apply jsstring_eqb_neq in E. now split.
    + intros f' Hf'. left. exists f'. apply deleteFeature_In in Hf' as [Hin _].
      split; [exact Hin | apply evolves_refl].
  - exact Hsame.
Qed.

Lemma loadData_requests (w : World) :
  requests (loadData w) =
  requests w ++ [ReqSelect (lit "forge_features"); ReqSelect (lit "forge_config")].
Proof.
  unfold loadData, load_flag.
  repeat match goal with
         | |- context [match ?o with Some _ => _ | None => _ end] => destruct o
         end; simpl; now rewrite <- app_assoc.
Qed.

Lemma justified_perform (a : Action) (w : World) : justified w (perform a w).
Proof.
  assert (Hsame : justified w w)
    by (apply (justified_same_store _ _ []); [now rewrite app_nil_r | reflexivity]).
  destruct a; cbn [perform].
  - eapply justified_same_store; [apply loadData_requests | now rewrite loadData_store].
  - eapply justified_same_store; reflexivity.
  - exact Hsame.
  - exact Hsame.
  - destruct (showAddForm (ui w)); exact Hsame.
  - destruct (showAddForm (ui w)); [apply justified_addFeature | exact Hsame].
  - destruct (showAddForm (ui w)); [apply justified_addFeature | exact Hsame].
  - destruct (features (ui w) !! i) as [f|]; [|exact Hsame].
    unfold clickFeature. destruct (_ && _); exact Hsame.
  - apply justified_press.
  - eapply justified_same_store; reflexivity.
  - eapply justified_same_store; reflexivity.
Qed.

Lemma justified_performAll (acts : list Action) (w : World) :
  justified w (performAll acts w).
Proof.
  unfold performAll. revert w.
  induction acts as [|a acts IH]; intros w; simpl.
  - apply (justified_same_store _ _ []); [now rewrite app_nil_r | reflexivity].
  - eapply justified_trans; [apply justified_perform | apply IH].
Qed.

Lemma provenance_performAll (acts : list Action) (w : World) :
  provenance (insertedIds acts) (forge_features (store w))
    (forge_features (store (performAll acts w))).
Proof.
  unfold performAll, insertedIds. revert w.
  induction acts as [|a acts IH]; intros w; simpl; [apply provenance_refl|].
  eapply provenance_trans; [apply provenance_perform | apply IH].
Qed.

(** X19. Whatever the operator does, and in whatever order: a row of the
    initial table is still in the table, with id, name, description,
    category, instructions and started_at unchanged and a status that is
    the initial one or is neither in_progress nor failed, unless the
    component has sent a delete of its id; a row of the final table is such
    a row or has the texts of an insert that the component has sent; the
    initial rows that remain keep their order and come before the inserted
    ones.  So the component never puts a row in progress or in failure. *)
Theorem actions_leave_worker_columns (acts : list Action) (w : World) :
  justified w (performAll acts w)
  /\ provenance (insertedIds acts) (forge_features (store w))
       (forge_features (store (performAll acts w)))
  /\ (forall f', In f' (forge_features (store (performAll acts w))) ->
        workerStatus (Feature.status f') = true ->
        exists f, In f (forge_features (store w))
                  /\ Feature.id f = Feature.id f'
                  /\ Feature.status f = Feature.status f').
Proof.
  pose proof (justified_performAll acts w) as Hj.
  pose proof (provenance_performAll acts w) as H.
  split; [exact Hj|]. split; [exact H|]. intros f' Hf' Hw.
  destruct Hj as (sent & _ & _ & Hb).
  destruct (Hb f' Hf') as [(f & Hf & Hid & _ & _ & _ & _ & _ & Hs)|((_ & _ & _ & Hc) & _)];
    [|congruence].
  exists f. destruct Hs as [Hs|Hs]; [auto | congruence].
Qed.

Lemma config_descends_refl (c : gmap (list N) cfgval) : config_descends c c.
Proof. intros k v H. now left. Qed.

Lemma config_descends_trans (c1 c2 c3 : gmap (list N) cfgval) :
  config_descends c1 c2 -> config_descends c2 c3 -> config_descends c1 c3.
Proof.
  intros H12 H23 k v H. destruct (H23 k v H) as [H2|?]; [|now right].
  exact (H12 k v H2).
Qed.

Lemma config_descends_insert (key : jsstring) (b : bool) (c : gmap (list N) cfgval) :
  key ∈ knownKeys ->
  config_descends c (<[key := VString (String_of_bool b)]> c).
Proof.
  intros Hkey k v. destruct (decide (key = k)) as [<-|Hne].
  - rewrite lookup_insert_eq. intros [= <-]. right. split; [exact Hkey|].
    destruct b; auto.
  - rewrite lookup_insert_ne by exact Hne. now left.
Qed.

Lemma known_engine_paused : lit "engine_paused" ∈ knownKeys.
Proof. unfold knownKeys. set_solver. Qed.

Lemma known_auto_approve : lit "auto_approve" ∈ knownKeys.
Proof. unfold knownKeys. set_solver. Qed.

Lemma known_skip_on_error : lit "skip_on_error" ∈ knownKeys.
Proof. unfold knownKeys. set_solver. Qed.

Lemma config_addFeature (startNow : bool) (resp : InsertResponse) (w : World) :
  config_descends (forge_config (store w))
    (forge_config (store (addFeature startNow resp w))).
Proof.
  unfold addFeature.
  destruct (truthy _); simpl; [|apply config_descends_refl].
  destruct resp; simpl; [|apply config_descends_refl].
  destruct (startNow && enginePaused (ui w)); [|apply config_descends_refl].
  exact (config_descends_insert (lit "engine_paused") false _ known_engine_paused).
Qed.

Lemma config_press (b : Button) (now : jsstring) (w : World) :
  forge_config (store (press b now w)) = forge_config (store w).
Proof.
  unfold press. destruct (selectedFeature (ui w)) as [sel|]; [|reflexivity].
  destruct (existsb _ _); [|reflexivity].
  destruct b; try reflexivity.
  unfold buttonHandler, moveUp. now destruct (List.find _ _).
Qed.

Lemma config_perform (a : Action) (w : World) :
  config_descends (forge_config (store w)) (forge_config (store (perform a w))).
Proof.
  destruct a; cbn [perform]; try apply config_descends_refl.
  - rewrite loadData_store. apply config_descends_refl.
  - exact (config_descends_insert (lit "engine_paused") _ _ known_engine_paused).
  - destruct (showAddForm (ui w)); apply config_descends_refl.
  - destruct (showAddForm (ui w)); [apply config_addFeature | apply config_descends_refl].
  - destruct (showAddForm (ui w)); [apply config_addFeature | apply config_descends_refl].
  - destruct (features (ui w) !! i) as [f|]; [|apply config_descends_refl].
    unfold clickFeature. destruct (_ && _); apply config_descends_refl.
  - rewrite config_press. apply config_descends_refl.
  - exact (config_descends_insert (lit "auto_approve") _ _ known_auto_approve).
  - exact (config_descends_insert (lit "skip_on_error") _ _ known_skip_on_error).
Qed.

(** X20. Whatever the operator does, the component writes the
    configuration only under the keys engine_paused, auto_approve and
    skip_on_error, and only the texts 'true' and 'false': any other key, the
    notification address among them, keeps its value, and no key is ever
    removed. *)
Theorem actions_write_three_keys (acts : list Action) (w : World) :
  config_descends (forge_config (store w))
    (forge_config (store (performAll acts w)))
  /\ (forall k, k ∉ knownKeys ->
        forge_config (store (performAll acts w)) !! k
          = forge_config (store w) !! k)
  /\ dom (forge_config (store w)) ⊆ dom (forge_config (store (performAll acts w))).
Proof.
  unfold performAll. revert w.
  induction acts as [|a acts IH]; intros w; simpl.
  - split; [apply config_descends_refl|]. split; [reflexivity | set_solver].
  - destruct (IH (perform a w)) as (Hd & Hother & Hdom).
    assert (Hstep : (forall k, k ∉ knownKeys ->
                       forge_config (store (perform a w)) !! k
                         = forge_config (store w) !! k)
                    /\ dom (forge_config (store w))
                         ⊆ dom (forge_config (store (perform a w)))).
    { clear. destruct a; cbn [perform];
        try (split; [reflexivity | set_solver]);
        try (rewrite loadData_store; split; [reflexivity | set_solver]);
        try (rewrite config_press; split; [reflexivity | set_solver]).
      - split; [intros k Hk; apply lookup_insert_ne; intros <-;
                  apply Hk, known_engine_paused|].
        simpl. rewrite dom_insert_L. set_solver.
      - destruct (showAddForm (ui w)); split; reflexivity || set_solver.
      - destruct (showAddForm (ui w)); [|split; [reflexivity | set_solver]].
        unfold addFeature. destruct (truthy _); [|split; [reflexivity | set_solver]].
        destruct resp; split; reflexivity || set_solver.
      - destruct (showAddForm (ui w)); [|split; [reflexivity | set_solver]].
        unfold addFeature. destruct (truthy _); [|split; [reflexivity | set_solver]].
        destruct resp; [|split; [reflexivity | set_solver]].
        destruct (true && enginePaused (ui w)); [|split; [reflexivity | set_solver]].
        split; [intros k Hk; apply lookup_insert_ne; intros <-;
                  apply Hk, known_engine_paused|].
        simpl. rewrite dom_insert_L. set_solver.
      - destruct (features (ui w) !! i) as [f|]; [|split; [reflexivity | set_solver]].
        unfold clickFeature. destruct (_ && _); split; reflexivity || set_solver.
      - split; [intros k Hk; apply lookup_insert_ne; intros <-;
                  apply Hk, known_auto_approve|].
        simpl. rewrite dom_insert_L. set_solver.
      - split; [intros k Hk; apply lookup_insert_ne; intros <-;
                  apply Hk, known_skip_on_error|].
        simpl. rewrite dom_insert_L. set_solver. }
    destruct Hstep as [Hstep Hsub]. split; [|split].
    + eapply config_descends_trans; [apply config_perform | exact Hd].
    + intros k Hk. rewrite (Hother k Hk). now apply Hstep.
    + etransitivity; [exact Hsub | exact Hdom].
Qed.

(** ** Reordering seen through the next poll *)

Lemma filter_sorted {A : Type} (R : A -> A -> Prop) (p : A -> bool) (l : list A) :
  StronglySorted R l -> StronglySorted R (List.filter p l).
Proof.
  induction 1 as [|a l Hl IH Ha]; simpl; [constructor|].
  destruct (p a); [|exact IH]. constructor; [exact IH|].
  apply List.Forall_forall. intros b Hb. apply List.filter_In in Hb as [Hb _].
  exact (proj1 (List.Forall_forall _ _) Ha b Hb).
Qed.

Lemma moveToTop_store (id : jsstring) (w : World) :
  store (moveToTop id w) =
  store (supabase_update
    (Patch.mk None
       (Some (num_sub (Math_min (pendingPriorities (features (ui w)))) (Fin 1)))
       None None None) id w).
Proof. reflexivity. Qed.

Lemma loadDataWith_store (featuresData : option (list Feature.t))
    (configData : option (gmap (list N) cfgval)) (w : World) :
  store (loadDataWith featuresData configData w) = store w.
Proof.
  unfold loadDataWith, load_flag_from.
  destruct featuresData, configData; simpl;
    repeat match goal with
           | |- context [match ?o with Some _ => _ | None => _ end] => destruct o
           end; reflexivity.
Qed.

Lemma loadDataWith_features (reply : list Feature.t)
    (configData : option (gmap (list N) cfgval)) (w : World) :
  features (ui (loadDataWith (Some reply) configData w)) = reply.
Proof.
  unfold loadDataWith, load_flag_from.
  destruct configData; simpl;
    repeat match goal with
           | |- context [match ?o with Some _ => _ | None => _ end] => destruct o
           end; reflexivity.
Qed.

(** [loadData] is the run in which both selects answer. *)
Lemma loadData_success_case (w : World) :
  loadData w =
  loadDataWith (Some (order_by_priority (forge_features (store w))))
    (Some (forge_config (store w))) w.
Proof.
  destruct w as [[rows cfg] reqs n d].
  unfold loadData, loadDataWith, load_flag, load_flag_from. simpl.
  repeat match goal with
         | |- context [match cfg !! ?k with Some _ => _ | None => _ end] =>
             destruct (cfg !! k); simpl
         end.
  all: reflexivity.
Qed.

(** X21. On exact pending priorities (whole numbers and halves up to 2^51
    in magnitude), when the pending rows of the store are those of the
    snapshot, a pending feature moved to the top is the first pending
    feature shown after the next poll whose select answers with the rows of
    the table, the pending ones in ascending order of priority. *)
Theorem moveToTop_then_poll_first (id : jsstring) (w : World) (f : Feature.t)
    (reply : list Feature.t) (configData : option (gmap (list N) cfgval)) :
  In f (forge_features (store w)) -> Feature.id f = id -> isPending f = true ->
  Forall exactPriority (pendingPriorities (features (ui w))) ->
  (forall g, In g (forge_features (store w)) -> isPending g = true ->
     In (Feature.priority g) (pendingPriorities (features (ui w)))) ->
  Permutation reply (forge_features (store (moveToTop id w))) ->
  ascending (List.filter isPending reply) ->
  exists h rest,
    List.filter isPending
      (features (ui (loadDataWith (Some reply) configData (moveToTop id w))))
      = h :: rest
    /\ Feature.id h = id.
Proof.
  intros Hf Hid Hp Hexact Hagree Hperm Hsorted.
  pose proof (exact_all_finite _ Hexact) as Hfin.
  assert (Hne : pendingPriorities (features (ui w)) <> []).
  { intros E. specialize (Hagree f Hf Hp). rewrite E in Hagree. contradiction. }
  destruct (Math_min_finite _ Hne Hfin) as (m & Hm & _ & Hle).
  rewrite loadDataWith_features. rewrite moveToTop_store, Hm in Hperm.
  set (patch := Patch.mk None (Some (num_sub (Fin m) (Fin 1))) None None None) in *.
  assert (Hmoved : In (Patch.apply patch f) (List.filter isPending reply)).
  { apply List.filter_In. split; [|exact Hp].
    apply (Permutation_in _ (Permutation_sym Hperm)).
    pose proof (update_patches patch id w f Hf) as H.
    rewrite <- Hid, jsstring_eqb_refl in H. now rewrite <- Hid. }
  destruct (List.filter isPending reply) as [|h rest] eqn:Eshown; [contradiction|].
  exists h, rest. split; [reflexivity|].
  destruct (jsstring_eqb (Feature.id h) id) eqn:Eh; [now apply jsstring_eqb_eq|].
  exfalso. apply jsstring_eqb_neq in Eh.
  assert (Hh : In h (List.filter isPending reply)) by (rewrite Eshown; now left).
  apply List.filter_In in Hh as [Hh Hhp].
  apply (Permutation_in _ Hperm) in Hh.
  pose proof (untouched_row _ _ _ _ Hh Eh) as Hold.
  pose proof (below_least _ m _ Hfin Hle (Hagree h Hold Hhp)) as Hlt.
  destruct Hmoved as [E|Hrest]; [rewrite E in Eh; now apply Eh|].
  apply StronglySorted_inv in Hsorted as [_ Hall].
  pose proof (proj1 (List.Forall_forall _ _) Hall _ Hrest) as Hleb.
  destruct (finite_inv (Feature.priority h)) as [q Hq].
  { exact (proj1 (List.Forall_forall _ _) Hfin _ (Hagree h Hold Hhp)). }
  rewrite Hq in Hlt. apply num_ltb_Fin in Hlt.
  specialize (Hleb q (m - 1)%Q Hq eq_refl). lra.
Qed.

Lemma moveToTop_then_poll_first_witness :
  exists h rest,
    List.filter isPending (features (ui
      (loadDataWith
         (Some [sampleFeature "b" (5 - 1) "pending"; sampleFeature "a" 5 "pending"])
         None
         (moveToTop (lit "b")
            (polled [sampleFeature "a" 5 "pending"; sampleFeature "b" 7 "pending"])))))
    = h :: rest
    /\ Feature.id h = lit "b".
Proof.
  apply (moveToTop_then_poll_first (lit "b")
           (polled [sampleFeature "a" 5 "pending"; sampleFeature "b" 7 "pending"])
           (sampleFeature "b" 7 "pending")).
  - right. left. reflexivity.
  - reflexivity.
  - reflexivity.
  - repeat constructor.
  - intros g [<-|[<-|[]]] _; vm_compute; auto.
  - exact (perm_swap _ _ _).
  - repeat constructor. intros x y [= <-] [= <-]. discriminate.
Defined.

Lemma moveUp_round (id : jsstring) (q : Q) (w : World) (reply : list Feature.t)
    (configData : option (gmap (list N) cfgval)) :
  polledAt id q w ->
  Permutation reply (forge_features (store (moveUp id w))) ->
  polledAt id (q - (3 # 2)) (loadDataWith (Some reply) configData (moveUp id w)).
Proof.
  intros (Hsnap & (f & Hf & Hid) & Hprio) Hperm.
  destruct (List.find (fun g => jsstring_eqb (Feature.id g) id) (features (ui w)))
    as [g|] eqn:Efind.
  - pose proof (List.find_some _ _ Efind) as [Hg Hgid].
    apply (Permutation_in _ Hsnap) in Hg. apply jsstring_eqb_eq in Hgid.
    pose proof (moveUp_store id w g Efind) as Hstore.
    rewrite (Hprio g Hg Hgid) in Hstore.
    unfold polledAt.
    rewrite loadDataWith_features, loadDataWith_store. rewrite Hstore in Hperm |- *.
    split; [exact Hperm|]. split.
    + pose proof (update_patches
        (Patch.mk None (Some (num_sub (Fin q) (Fin MOVE_UP_STEP))) None None None)
        id w f Hf) as H.
      rewrite Hid, jsstring_eqb_refl in H. eexists. split; [exact H|]. exact Hid.
    + intros f' Hf' Hid'.
      destruct (updated_row _ _ _ _ Hf' Hid') as (f0 & _ & _ & ->). reflexivity.
  - exfalso.
    pose proof (List.find_none _ _ Efind f
                  (Permutation_in _ (Permutation_sym Hsnap) Hf)) as H.
    simpl in H. rewrite Hid, jsstring_eqb_refl in H. discriminate H.
Qed.

(** X22. Move-ups add up without any renumbering: on exact priorities
    (whole numbers and halves up to 2^51 in magnitude, at the start and at
    the end), after [n] rounds of move-up and poll on a feature of priority
    [p], each poll answering with the rows of the table, the priority of
    the feature in the table is [p - 1.5 n]. *)
Theorem moveUp_rounds (id : jsstring) (n : nat) (p : Q) (w w' : World) :
  exactPriority (Fin p) ->
  exactPriority (Fin (p - (3 # 2) * inject_Z (Z.of_nat n))) ->
  polledAt id p w ->
  moveUpRun id n w w' ->
  exists q : Q,
    (q == p - (3 # 2) * inject_Z (Z.of_nat n))%Q
    /\ polledAt id q w'.
Proof.
  intros _ _ H Hrun. induction Hrun as [w|n w w' reply configData _ IH Hperm].
  - exists p. split; [|exact H]. change (inject_Z (Z.of_nat 0)) with 0%Q. lra.
  - destruct (IH H) as (q & Hq & Hpolled).
    exists (q - (3 # 2))%Q.
    split; [|exact (moveUp_round id q _ reply configData Hpolled Hperm)].
    rewrite Nat2Z.inj_succ, <- Z.add_1_r, inject_Z_plus, Hq.
    change (inject_Z 1) with 1%Q. lra.
Qed.

Lemma moveUpRounds_run (id : jsstring) (n : nat) (w : World) :
  moveUpRun id n w (moveUpRounds id n w).
Proof.
  induction n as [|n IH]; [constructor|].
  unfold moveUpRounds in *. simpl. rewrite loadData_success_case.
  apply moveUpRun_S; [exact IH|]. apply order_by_priority_perm.
Qed.

Lemma moveUp_rounds_witness :
  exists q : Q,
    (q == 10 - (3 # 2) * inject_Z (Z.of_nat 3))%Q
    /\ polledAt (lit "b") q (moveUpRounds (lit "b") 3
         (polled [sampleFeature "a" 1 "pending"; sampleFeature "b" 10 "pending"])).
Proof.
  apply (moveUp_rounds (lit "b") 3 10
           (polled [sampleFeature "a" 1 "pending"; sampleFeature "b" 10 "pending"])).
  - reflexivity.
  - reflexivity.
  - split; [apply Permutation_refl|]. split.
    + exists (sampleFeature "b" 10 "pending"). split; [right; left|]; reflexivity.
    + intros f [<-|[<-|[]]] Hid; [discriminate Hid | reflexivity].
  - apply moveUpRounds_run.
Defined.

(** ** The two renderings of the transitions *)

(** X23. The inline buttons of src/app/page.tsx and the action sheet agree:
    on a row of a given status, a transition button is rendered inline
    exactly when the sheet offers it for a selected feature of that
    status. *)
Theorem inline_buttons_match_sheet (f : Feature.t) (b : Button) :
  transitionButton b = true ->
  existsb (Button_eqb b) (Page.rowButtons f)
    = offeredOn (Some (Feature.status f)) b.
Proof.
  intros Hb. unfold Page.rowButtons, offeredOn, status_is.
  destruct (jsstring_eqb (Feature.status f) (lit "failed")),
    (jsstring_eqb (Feature.status f) (lit "pending")),
    (jsstring_eqb (Feature.status f) (lit "skipped")), b;
    try discriminate Hb; reflexivity.
Qed.

Lemma inline_buttons_match_sheet_witness :
  existsb (Button_eqb RequeueBtn) (Page.rowButtons (sampleFeature "a" 1 "skipped"))
  = offeredOn (Some (lit "skipped")) RequeueBtn.
Proof.
  apply (inline_buttons_match_sheet (sampleFeature "a" 1 "skipped") RequeueBtn).
  reflexivity.
Defined.

(** ** White space around the pasted text *)

Lemma trimStart_blank_app (a s : jsstring) :
  forallb isWhiteSpace a = true -> trimStart (a ++ s) = trimStart s.
Proof.
  induction a as [|c a IH]; simpl; [reflexivity|].
  intros H. apply andb_prop in H as [-> H]. auto.
Qed.

Lemma trimStart_app (s b : jsstring) :
  trimStart s <> [] -> trimStart (s ++ b) = trimStart s ++ b.
Proof.
  induction s as [|c s IH]; simpl; [congruence|].
  destruct (isWhiteSpace c); [exact IH | reflexivity].
Qed.

Lemma trimStart_nil_blank (s : jsstring) :
  trimStart s = [] -> forallb isWhiteSpace s = true.
Proof.
  induction s as [|c s IH]; simpl; [reflexivity|].
  destruct (isWhiteSpace c); [exact IH | discriminate].
Qed.

Lemma forallb_rev_blank (b : jsstring) :
  forallb isWhiteSpace b = true -> forallb isWhiteSpace (rev b) = true.
Proof.
  rewrite !forallb_forall. intros H c Hc. apply H. now apply in_rev.
Qed.

Lemma trimEnd_app_blank (t b : jsstring) :
  forallb isWhiteSpace b = true -> trimEnd (t ++ b) = trimEnd t.
Proof.
  intros H. unfold trimEnd. rewrite rev_app_distr.
  now rewrite trimStart_blank_app by now apply forallb_rev_blank.
Qed.

Lemma trim_outer_blank (a s b : jsstring) :
  forallb isWhiteSpace a = true -> forallb isWhiteSpace b = true ->
  trim (a ++ s ++ b) = trim s.
Proof.
  intros Ha Hb. unfold trim. rewrite trimStart_blank_app by assumption.
  destruct (trimStart s) as [|c t] eqn:E.
  - rewrite trimStart_blank; [reflexivity|].
    rewrite forallb_app, Hb, (trimStart_nil_blank s E). reflexivity.
  - rewrite trimStart_app by (rewrite E; discriminate).
    rewrite E. now apply trimEnd_app_blank.
Qed.

(** X24. White space and blank lines before and after the pasted text make
    no difference to what is parsed. *)
Theorem parseSpec_ignores_outer_space (a spec b : jsstring) :
  forallb isWhiteSpace a = true -> forallb isWhiteSpace b = true ->
  parseSpec (a ++ spec ++ b) = parseSpec spec.
Proof.
  intros Ha Hb. unfold parseSpec, specLines.
  now rewrite trim_outer_blank.
Qed.

Lemma parseSpec_ignores_outer_space_witness :
  parseSpec ([LF; 32] ++ lit "NAME: Foo" ++ [32; LF; LF]) = parseSpec (lit "NAME: Foo").
Proof.
  apply (parseSpec_ignores_outer_space [LF; 32] (lit "NAME: Foo") [32; LF; LF]);
    reflexivity.
Defined.

(** ** Further instances *)

Lemma actions_leave_worker_columns_witness :
  exists f, In f [sampleFeature "a" 1 "in_progress"; sampleFeature "b" 2 "pending"]
            /\ Feature.id f = lit "a"
            /\ Feature.status f = lit "in_progress".
Proof.
  apply (proj2 (proj2 (actions_leave_worker_columns
           [ClickRow 0; Press SkipBtn someDate; ClickRow 1; Press SkipBtn someDate; Poll]
           (polled [sampleFeature "a" 1 "in_progress"; sampleFeature "b" 2 "pending"])))
           (sampleFeature "a" 1 "in_progress")).
  - vm_compute. left. reflexivity.
  - reflexivity.
Defined.

Lemma actions_write_three_keys_witness :
  forge_config (store (performAll [ToggleEngine; ToggleAutoApprove; Poll]
    (mkWorld (mkStore [] {[ lit "notification_email" := VString (lit "a@b.c") ]})
       [] 0 initialDashboard))) !! lit "notification_email"
  = Some (VString (lit "a@b.c")).
Proof.
  destruct (actions_write_three_keys [ToggleEngine; ToggleAutoApprove; Poll]
    (mkWorld (mkStore [] {[ lit "notification_email" := VString (lit "a@b.c") ]})
       [] 0 initialDashboard)) as (_ & Hother & _).
  rewrite Hother; [reflexivity|].
  apply (bool_decide_unpack _). vm_compute. exact I.
Defined.
